(** * libdebug: command-line arguments of the logging library (dcmdarg.cpp)

    A shallow embedding of [src/libdebug/dcmdarg.cpp]: the holder of the
    command-line values ([DebugCmdArgs]), the GLib callback that parses
    [--debug-levels], and the post-parse hook that first computes the set of
    enabled levels and then pushes it, with the colour switch, into every
    stream of the domain map. *)

From Stdlib Require Import ZArith List String Ascii Bool Lia.
Import ListNotations.

Local Open Scope string_scope.
Local Open Scope Z_scope.

(** ** C and C++ data *)

(** [gboolean] is GLib's [typedef gint gboolean]; a condition [if (b)] tests
    it against zero. *)
Definition gboolean := Z.
Definition gint := Z.
Definition TRUE : gboolean := 1.
Definition FALSE : gboolean := 0.

Definition truthy (b : gboolean) : bool := negb (b =? 0).

(** [unsigned long] has 64 bits (LP64); [~x] on it flips these 64 bits. *)
Definition ulong_bits : Z := 64.
Definition ulong_not (x : Z) : Z := Z.lxor x (Z.ones ulong_bits).

(** [std::bitset<n>] as the number its bits spell.  The converting
    constructor [bitset(unsigned long long)] keeps the low [n] bits. *)
Definition to_bitset (n v : Z) : Z := Z.land v (Z.ones n).

(** [std::find(v.begin(), v.end(), s) != v.end()] on a vector of strings. *)
Definition found (v : list string) (s : string) : bool :=
  existsb (String.eqb s) v.

(** [v.empty()] *)
Definition empty {A} (v : list A) : bool :=
  match v with [] => true | _ :: _ => false end.

(** ** debug_level (dflags.h) *)

Module debug_level.

(** Modelled from the spec: the enumeration [debug_level::flag] and the
    bitset [debug_level::types] live in dflags.h, which is not part of the
    sources at hand.  The spec (3, Data model) gives a bitmask over five
    ordered severity levels, dump < info < warn < error < fatal, with the
    constants [none] (no bit) and [all] (the five bits): the i-th level
    of that order is bit i. *)
Inductive flag : Set := dump | info | warn | error | fatal.

Definition pos (f : flag) : Z :=
  match f with
  | dump => 0 | info => 1 | warn => 2 | error => 3 | fatal => 4
  end.

(** The value of the enumerator. *)
Definition bit (f : flag) : Z := Z.shiftl 1 (pos f).

Definition none : Z := 0.
Definition all : Z :=
  Z.lor (bit dump) (Z.lor (bit info) (Z.lor (bit warn) (Z.lor (bit error) (bit fatal)))).
Definition bits : Z := 5.

Definition flags : list flag := [dump; info; warn; error; fatal].

(** The name a level has on the command line. *)
Definition name (f : flag) : string :=
  match f with
  | dump => "dump" | info => "info" | warn => "warn"
  | error => "error" | fatal => "fatal"
  end.

(** [types] is [std::bitset<bits>]; [a |= v] with an enumerator [v]. *)
Definition types := Z.
Definition or_assign (a : types) (v : Z) : types := Z.lor a (to_bitset bits v).

(** [bool(levels.to_ulong() & f)]: the test the post-parse hook applies to
    a level. *)
Definition enabled_in (levels_ulong : Z) (f : flag) : bool :=
  negb (Z.land levels_ulong (bit f) =? 0).

(** The bitset that holds exactly the levels of a list. *)
Definition of_list (l : list flag) : types :=
  fold_right (fun f acc => Z.lor (bit f) acc) none l.

(** Inclusion of level sets. *)
Definition subset (a b : types) : Prop := Z.land a b = a.

End debug_level.

(** ** DebugCmdArgs *)

(** [struct DebugCmdArgs]: the values of the command-line arguments. *)
Record DebugCmdArgs : Set := mkDebugCmdArgs {
  verbose : gboolean;
  quiet : gboolean;
  verbosity_level : gint;
  debug_levels : list string;
  debug_colorize : gboolean;
  levels_enabled : debug_level.types
}.

(** The constructor, with the member initialisers as defaults and the two
    preprocessor switches as booleans. *)
Definition DebugCmdArgs_new (win32 debug_build : bool) : DebugCmdArgs :=
  {| verbose := if win32 then TRUE else FALSE;
     quiet := FALSE;
     verbosity_level := if debug_build then 5 else 3;
     debug_levels := [];
     debug_colorize := if win32 then FALSE else TRUE;
     levels_enabled := to_bitset debug_level.bits 0 |}.

Definition set_levels_enabled (a : DebugCmdArgs) (l : debug_level.types) : DebugCmdArgs :=
  {| verbose := verbose a; quiet := quiet a;
     verbosity_level := verbosity_level a;
     debug_levels := debug_levels a;
     debug_colorize := debug_colorize a;
     levels_enabled := l |}.

Definition set_debug_levels (a : DebugCmdArgs) (v : list string) : DebugCmdArgs :=
  {| verbose := verbose a; quiet := quiet a;
     verbosity_level := verbosity_level a;
     debug_levels := v;
     debug_colorize := debug_colorize a;
     levels_enabled := levels_enabled a |}.

(** The holder with another number in [verbosity_level]. *)
Definition set_verbosity_level (a : DebugCmdArgs) (n : gint) : DebugCmdArgs :=
  {| verbose := verbose a; quiet := quiet a;
     verbosity_level := n;
     debug_levels := debug_levels a;
     debug_colorize := debug_colorize a;
     levels_enabled := levels_enabled a |}.

(** ** The level set computed by the post-parse hook *)

(** The first half of [debug_internal_post_parse_func]: the value the
    if / else-if chain leaves in [args->levels_enabled]. *)
Definition resolve_levels (args : DebugCmdArgs) : debug_level.types :=
  let by_name (n : string) (f : debug_level.flag) :=
    if found (debug_levels args) n then debug_level.bit f else debug_level.none in
  if negb (empty (debug_levels args)) then
    let le := to_bitset debug_level.bits debug_level.none in
    let le := debug_level.or_assign le (by_name "dump" debug_level.dump) in
    let le := debug_level.or_assign le (by_name "info" debug_level.info) in
    let le := debug_level.or_assign le (by_name "warn" debug_level.warn) in
    let le := debug_level.or_assign le (by_name "error" debug_level.error) in
    let le := debug_level.or_assign le (by_name "fatal" debug_level.fatal) in
    le
  else if truthy (quiet args) then
    to_bitset debug_level.bits debug_level.none
  else if truthy (verbose args) then
    to_bitset debug_level.bits debug_level.all
  else
    let le := to_bitset debug_level.bits debug_level.none in
    let le := if verbosity_level args >? 0
              then debug_level.or_assign le (debug_level.bit debug_level.fatal) else le in
    let le := if verbosity_level args >? 1
              then debug_level.or_assign le (debug_level.bit debug_level.error) else le in
    let le := if verbosity_level args >? 2
              then debug_level.or_assign le (debug_level.bit debug_level.warn) else le in
    let le := if verbosity_level args >? 3
              then debug_level.or_assign le (debug_level.bit debug_level.info) else le in
    let le := if verbosity_level args >? 4
              then debug_level.or_assign le (debug_level.bit debug_level.dump) else le in
    le.

(** ** The callback of [--debug-levels] *)

(** The pieces of [str] between occurrences of [delimiter]; [cur] is the
    piece being read. *)
Fixpoint pieces (delimiter : ascii) (str cur : string) : list string :=
  match str with
  | EmptyString => [cur]
  | String c rest =>
      if Ascii.eqb c delimiter
      then cur :: pieces delimiter rest EmptyString
      else pieces delimiter rest (cur ++ String c EmptyString)
  end.

Definition nonempty (s : string) : bool :=
  match s with EmptyString => false | String _ _ => true end.

(** Modelled from the spec: [hz::string_split] is defined in
    hz/string_algo.h, which is not part of the sources at hand.  The spec
    (6, External interfaces) has the callback split on commas and ignore
    empty segments; the call passes the vector of the holder by reference
    and the flag [true] for skipping empty pieces, and the pieces are pushed
    onto the back of that vector.  The value is the vector after the call. *)
Definition string_split (str : string) (delimiter : ascii)
    (append_here : list string) (skip_empty : bool) : list string :=
  append_here ++
  (if skip_empty
   then filter nonempty (pieces delimiter str EmptyString)
   else pieces delimiter str EmptyString).

(** [debug_internal_parse_levels]: [value] is a C string or the null
    pointer, [data] the holder; the result is the returned [gboolean] and the
    holder after the call. *)
Definition debug_internal_parse_levels (value : option string)
    (data : DebugCmdArgs) : bool * DebugCmdArgs :=
  match value with
  | None => (false, data)
  | Some levels =>
      (true, set_debug_levels data (string_split levels "," (debug_levels data) true))
  end.

(** GLib calls the callback once for each [--debug-levels] on the command
    line, on the same holder. *)
Definition parse_levels_all (values : list (option string))
    (data : DebugCmdArgs) : DebugCmdArgs :=
  fold_left (fun d v => snd (debug_internal_parse_levels v d)) values data.

(** ** Streams and the domain map *)

(** Modelled from the spec: the class [DebugOutStream] is declared in a
    header that is not part of the sources at hand.  The spec (3, Data
    model) gives each logger [setEnabled(bool)] and [getFormat()] /
    [setFormat(flags)]; the stream is the pair of the two members these
    read and write. *)
Record DebugOutStream : Set := mkDebugOutStream {
  is_enabled : bool;
  format : Z
}.

Definition set_enabled (s : DebugOutStream) (e : bool) : DebugOutStream :=
  {| is_enabled := e; format := format s |}.
Definition get_format (s : DebugOutStream) : Z := format s.
Definition set_format (s : DebugOutStream) (f : Z) : DebugOutStream :=
  {| is_enabled := is_enabled s; format := f |}.

(** The domain map holds pointers to streams ([iter2.second->...]): a
    stream is named by its address and the streams live in a store, so that
    one stream reachable through several entries is one object. *)
Definition handle := nat.
Definition Store := handle -> DebugOutStream.

Definition store_set (st : Store) (h : handle) (s : DebugOutStream) : Store :=
  fun h' => if Nat.eqb h' h then s else st h'.

(** Modelled from the spec: [DebugState::domain_map_t] is declared in
    dstate.h, which is not part of the sources at hand.  The spec (3, Data
    model) has a mapping from domain name to a mapping from level bit to
    logger handle.  A map is given by its entries in the order in which the
    range-for loop visits them. *)
Definition level_map_t := list (debug_level.flag * handle).
Definition domain_map_t := list (string * level_map_t).

(** All entries of the domain map, in the order of the two nested loops. *)
Definition entries (dm : domain_map_t) : list (debug_level.flag * handle) :=
  flat_map snd dm.

(** The stream [h] is reachable from the domain map under level [l]. *)
Definition registered (dm : domain_map_t) (l : debug_level.flag) (h : handle) : Prop :=
  exists d lm, In (d, lm) dm /\ In (l, h) lm.

Section PostParse.

(** The width of the bitset [debug_format::type] and the position of the
    bit [debug_format::color] come from dflags.h, which is not part of the
    sources at hand: they are parameters. *)
Variable format_bits : Z.
Variable color_pos : Z.

Definition debug_format_color : Z := Z.shiftl 1 color_pos.

(** The body of the inner loop for the entry [iter2]. *)
Definition visit (levels_enabled_ulong : Z) (color_enabled : bool)
    (st : Store) (iter2 : debug_level.flag * handle) : Store :=
  let s := st (snd iter2) in
  let s := set_enabled s (debug_level.enabled_in levels_enabled_ulong (fst iter2)) in
  let format := get_format s in
  let format :=
    if color_enabled
    then Z.lor format (to_bitset format_bits debug_format_color)
    else Z.land format (to_bitset format_bits (ulong_not debug_format_color)) in
  store_set st (snd iter2) (set_format s format).

(** What one visit does to the format [f] of the stream. *)
Definition with_color (color_enabled : bool) (f : Z) : Z :=
  if color_enabled
  then Z.lor f (to_bitset format_bits debug_format_color)
  else Z.land f (to_bitset format_bits (ulong_not debug_format_color)).

(** The two nested loops over the domain map. *)
Definition propagate (levels_enabled_ulong : Z) (color_enabled : bool)
    (dm : domain_map_t) (st : Store) : Store :=
  fold_left
    (fun st iter => fold_left (visit levels_enabled_ulong color_enabled) (snd iter) st)
    dm st.

(** [debug_internal_post_parse_func]: [data] is the holder; the state is the
    holder and the streams of the domain map; the result is the returned
    [gboolean] with the holder and the streams after the call. *)
Definition debug_internal_post_parse_func (data : DebugCmdArgs)
    (dm : domain_map_t) (st : Store) : bool * DebugCmdArgs * Store :=
  let args := set_levels_enabled data (resolve_levels data) in
  let color_enabled := truthy (debug_colorize args) in
  let levels_enabled_ulong := levels_enabled args in
  let st := propagate levels_enabled_ulong color_enabled dm st in
  (true, args, st).

End PostParse.

(** ** The dump of the holder *)

(** [operator<<] of [std::bitset<n>]: [n] characters, the highest bit
    first, 1 for a bit that is set and 0 for one that is not. *)
Fixpoint bitset_to_string (n : nat) (b : Z) : string :=
  match n with
  | O => EmptyString
  | S k => String (if Z.testbit b (Z.of_nat k) then "1"%char else "0"%char)
                  (bitset_to_string k b)
  end.

(** [operator<<] of [bool] on a stream with [std::boolalpha]. *)
Definition boolalpha (b : bool) : string := if b then "true" else "false".

Definition tab : string := String "009"%char EmptyString.
Definition newline : string := String "010"%char EmptyString.

(** [debug_get_cmd_args_dump], on the holder [args]: the two lines the
    string stream collects. *)
Definition debug_get_cmd_args_dump (args : DebugCmdArgs) : string :=
  (tab ++ "levels_enabled: "
       ++ bitset_to_string (Z.to_nat debug_level.bits) (levels_enabled args) ++ newline
   ++ tab ++ "debug_colorize: " ++ boolalpha (truthy (debug_colorize args)) ++ newline)%string.

(** ** Vocabulary of the statements *)

(** A set of levels given by its characteristic function. *)
Definition levels_where (p : debug_level.flag -> bool) : debug_level.types :=
  debug_level.of_list (filter p debug_level.flags).

(** The number a level's threshold test of branch 4 compares with. *)
Definition threshold (f : debug_level.flag) : Z := 4 - debug_level.pos f.

(** The level of the last entry of [es] that points to the stream [h]. *)
Definition last_level (es : list (debug_level.flag * handle)) (h : handle)
  : option debug_level.flag :=
  fold_left (fun acc e => if Nat.eqb h (snd e) then Some (fst e) else acc) es None.

(** The stream [h] has the level [l] of its own: the domain map reaches it,
    and reaches it under this level only. *)
Definition own_level (dm : domain_map_t) (h : handle) (l : debug_level.flag) : Prop :=
  registered dm l h /\ forall l', registered dm l' h -> l' = l.

(** A format value is a [std::bitset] of [n] bits. *)
Definition bitset_value (n f : Z) : Prop := 0 <= f < 2 ^ n.

(** Every character of [s] satisfies [p]. *)
Fixpoint string_forall (p : ascii -> bool) (s : string) : bool :=
  match s with
  | EmptyString => true
  | String c rest => p c && string_forall p rest
  end.

(** The character [d] occurs in [s]. *)
Definition has_char (d : ascii) (s : string) : bool :=
  negb (string_forall (fun c => negb (Ascii.eqb c d)) s).

(** * Properties *)

(** ** The code on concrete inputs *)

Example resolve_warn_bogus_error :
  resolve_levels (mkDebugCmdArgs FALSE FALSE 3 ["warn"; "bogus"; "error"] TRUE 0) =
  debug_level.of_list [debug_level.warn; debug_level.error].
Proof. reflexivity. Qed.

Example resolve_names_before_quiet :
  resolve_levels (mkDebugCmdArgs TRUE TRUE 5 ["bogus"] TRUE 0) = debug_level.none /\
  resolve_levels (mkDebugCmdArgs FALSE TRUE 0 ["dump"] TRUE 0) =
    debug_level.of_list [debug_level.dump].
Proof. split; reflexivity. Qed.

Example resolve_verbose_alone :
  resolve_levels (mkDebugCmdArgs TRUE FALSE 0 [] TRUE 0) = debug_level.all.
Proof. reflexivity. Qed.

Example resolve_numbers :
  map (fun v => resolve_levels (mkDebugCmdArgs FALSE FALSE v [] TRUE 0))
      [-7; 0; 1; 2; 3; 4; 5; 6; 4294967296] =
  [0; 0; 16; 24; 28; 30; 31; 31; 31].
Proof. reflexivity. Qed.

Example parse_levels_twice :
  debug_levels
    (parse_levels_all [Some "warn,,error,"; None; Some ""; Some "fatal,warn"]
       (DebugCmdArgs_new false false)) =
  ["warn"; "error"; "fatal"; "warn"].
Proof. reflexivity. Qed.

(** Two domains with a dump and a fatal stream each, five format bits with
    colour as bit 3: the default holder, with warn, error and fatal on and
    colour on. *)
Example post_parse_two_domains :
  let dm := [("app", [(debug_level.dump, 2%nat); (debug_level.fatal, 3%nat)]);
             ("default", [(debug_level.dump, 0%nat); (debug_level.fatal, 1%nat)])] in
  let st := fun _ : handle => mkDebugOutStream true 6 in
  let r := debug_internal_post_parse_func 5 3 (DebugCmdArgs_new false false) dm st in
  fst (fst r) = true /\
  levels_enabled (snd (fst r)) = 28 /\
  map (snd r) [0%nat; 1%nat; 2%nat; 3%nat; 4%nat] =
    [mkDebugOutStream false 14; mkDebugOutStream true 14;
     mkDebugOutStream false 14; mkDebugOutStream true 14;
     mkDebugOutStream true 6].
Proof. repeat split. Qed.

(** ** Level sets *)

Lemma found_In (v : list string) (s : string) : found v s = true <-> In s v.
Proof.
  unfold found. rewrite existsb_exists. split.
  - intros [x [Hin Heq]]. apply String.eqb_eq in Heq. now subst.
  - intros Hin. exists s. split; [assumption | apply String.eqb_refl].
Qed.

Lemma empty_false {A} (v : list A) : v <> [] -> empty v = false.
Proof. destruct v; [congruence | reflexivity]. Qed.

Lemma truthy_true (b : gboolean) : b <> 0 -> truthy b = true.
Proof. intros H. unfold truthy. apply Z.eqb_neq in H. now rewrite H. Qed.

Lemma levels_where_ext (p q : debug_level.flag -> bool) :
  (forall f, p f = q f) -> levels_where p = levels_where q.
Proof.
  intros H. unfold levels_where, debug_level.flags. simpl. now rewrite !H.
Qed.

Lemma enabled_in_levels_where (p : debug_level.flag -> bool) (f : debug_level.flag) :
  debug_level.enabled_in (levels_where p) f = p f.
Proof.
  unfold levels_where, debug_level.flags. simpl.
  destruct (p debug_level.dump) eqn:E0, (p debug_level.info) eqn:E1,
           (p debug_level.warn) eqn:E2, (p debug_level.error) eqn:E3,
           (p debug_level.fatal) eqn:E4;
    destruct f; rewrite ?E0, ?E1, ?E2, ?E3, ?E4; reflexivity.
Qed.

Lemma levels_where_range (p : debug_level.flag -> bool) :
  0 <= levels_where p <= debug_level.all.
Proof.
  unfold levels_where, debug_level.flags. simpl.
  destruct (p debug_level.dump), (p debug_level.info), (p debug_level.warn),
           (p debug_level.error), (p debug_level.fatal);
    vm_compute; split; discriminate.
Qed.

Lemma levels_where_subset_all (p : debug_level.flag -> bool) :
  debug_level.subset (levels_where p) debug_level.all.
Proof.
  unfold debug_level.subset, levels_where, debug_level.flags. simpl.
  destruct (p debug_level.dump), (p debug_level.info), (p debug_level.warn),
           (p debug_level.error), (p debug_level.fatal); reflexivity.
Qed.

(** Branch 1 of the chain: the names found in the vector. *)
Lemma resolve_by_names (a : DebugCmdArgs) :
  debug_levels a <> [] ->
  resolve_levels a =
  levels_where (fun f => found (debug_levels a) (debug_level.name f)).
Proof.
  intros H. unfold resolve_levels. rewrite (empty_false _ H). cbn [negb].
  unfold levels_where, debug_level.flags. cbn [filter debug_level.name].
  destruct (found (debug_levels a) "dump"), (found (debug_levels a) "info"),
           (found (debug_levels a) "warn"), (found (debug_levels a) "error"),
           (found (debug_levels a) "fatal"); reflexivity.
Qed.

Lemma resolve_quiet (a : DebugCmdArgs) :
  debug_levels a = [] -> quiet a <> 0 -> resolve_levels a = debug_level.none.
Proof.
  intros H Hq. unfold resolve_levels. rewrite H, (truthy_true _ Hq). reflexivity.
Qed.

Lemma resolve_verbose (a : DebugCmdArgs) :
  debug_levels a = [] -> quiet a = 0 -> verbose a <> 0 ->
  resolve_levels a = debug_level.all.
Proof.
  intros H Hq Hv. unfold resolve_levels. rewrite H, Hq, (truthy_true _ Hv). reflexivity.
Qed.

(** Branch 4 of the chain: a level is on when the number exceeds its
    threshold. *)
Lemma resolve_numeric (a : DebugCmdArgs) :
  debug_levels a = [] -> quiet a = 0 -> verbose a = 0 ->
  resolve_levels a = levels_where (fun f => verbosity_level a >? threshold f).
Proof.
  intros H Hq Hv. unfold resolve_levels. rewrite H, Hq, Hv. cbn [empty negb truthy Z.eqb].
  unfold levels_where, debug_level.flags, threshold.
  cbn [filter].
  change (4 - debug_level.pos debug_level.dump) with 4.
  change (4 - debug_level.pos debug_level.info) with 3.
  change (4 - debug_level.pos debug_level.warn) with 2.
  change (4 - debug_level.pos debug_level.error) with 1.
  change (4 - debug_level.pos debug_level.fatal) with 0.
  destruct (verbosity_level a >? 0) eqn:E0, (verbosity_level a >? 1) eqn:E1,
           (verbosity_level a >? 2) eqn:E2, (verbosity_level a >? 3) eqn:E3,
           (verbosity_level a >? 4) eqn:E4;
    reflexivity.
Qed.

Lemma resolve_is_levels_where (a : DebugCmdArgs) :
  exists p, resolve_levels a = levels_where p.
Proof.
  destruct (debug_levels a) eqn:E.
  - destruct (Z.eq_dec (quiet a) 0) as [Hq | Hq].
    + destruct (Z.eq_dec (verbose a) 0) as [Hv | Hv].
      * eexists. now apply resolve_numeric.
      * exists (fun _ => true). now rewrite resolve_verbose.
    + exists (fun _ => false). now rewrite resolve_quiet.
  - eexists. apply resolve_by_names. congruence.
Qed.

Lemma levels_where_subset (p q : debug_level.flag -> bool) :
  (forall f, p f = true -> q f = true) ->
  debug_level.subset (levels_where p) (levels_where q).
Proof.
  intros H.
  pose proof (H debug_level.dump) as H0. pose proof (H debug_level.info) as H1.
  pose proof (H debug_level.warn) as H2. pose proof (H debug_level.error) as H3.
  pose proof (H debug_level.fatal) as H4. clear H.
  unfold debug_level.subset, levels_where, debug_level.flags. simpl.
  destruct (p debug_level.dump);
    [rewrite (H0 eq_refl) | destruct (q debug_level.dump)];
  (destruct (p debug_level.info);
    [rewrite (H1 eq_refl) | destruct (q debug_level.info)]);
  (destruct (p debug_level.warn);
    [rewrite (H2 eq_refl) | destruct (q debug_level.warn)]);
  (destruct (p debug_level.error);
    [rewrite (H3 eq_refl) | destruct (q debug_level.error)]);
  (destruct (p debug_level.fatal);
    [rewrite (H4 eq_refl) | destruct (q debug_level.fatal)]);
  reflexivity.
Qed.

(** The five thresholds of branch 4, as a table. *)
Lemma numeric_table (v : Z) :
  (v <= 0 /\ levels_where (fun f => v >? threshold f) = debug_level.none) \/
  (v = 1 /\ levels_where (fun f => v >? threshold f) =
            debug_level.of_list [debug_level.fatal]) \/
  (v = 2 /\ levels_where (fun f => v >? threshold f) =
            debug_level.of_list [debug_level.error; debug_level.fatal]) \/
  (v = 3 /\ levels_where (fun f => v >? threshold f) =
            debug_level.of_list [debug_level.warn; debug_level.error; debug_level.fatal]) \/
  (v = 4 /\ levels_where (fun f => v >? threshold f) =
            debug_level.of_list
              [debug_level.info; debug_level.warn; debug_level.error; debug_level.fatal]) \/
  (5 <= v /\ levels_where (fun f => v >? threshold f) = debug_level.all).
Proof.
  unfold levels_where, debug_level.flags, threshold. cbn [filter].
  change (4 - debug_level.pos debug_level.dump) with 4.
  change (4 - debug_level.pos debug_level.info) with 3.
  change (4 - debug_level.pos debug_level.warn) with 2.
  change (4 - debug_level.pos debug_level.error) with 1.
  change (4 - debug_level.pos debug_level.fatal) with 0.
  destruct (Z.gtb_spec v 4); destruct (Z.gtb_spec v 3); destruct (Z.gtb_spec v 2);
    destruct (Z.gtb_spec v 1); destruct (Z.gtb_spec v 0);
    first [ exfalso; lia
          | left; split; [lia | reflexivity]
          | right; left; split; [lia | reflexivity]
          | right; right; left; split; [lia | reflexivity]
          | right; right; right; left; split; [lia | reflexivity]
          | right; right; right; right; left; split; [lia | reflexivity]
          | right; right; right; right; right; split; [lia | reflexivity] ].
Qed.

(** C1: the chain is evaluated in the order names, quiet, verbose, number.
    With a non-empty vector of names the level set is a function of that
    vector alone; else with [quiet] set it is [none], whatever [verbose] and
    the number are; else with [verbose] set it is [all], whatever the number
    is; else it is a function of the number alone.  In particular [quiet]
    and [verbose] both set, with no names, give [none]. *)
Theorem resolve_precedence (a : DebugCmdArgs) :
  (debug_levels a <> [] \/
   (debug_levels a = [] /\ quiet a <> 0) \/
   (debug_levels a = [] /\ quiet a = 0 /\ verbose a <> 0) \/
   (debug_levels a = [] /\ quiet a = 0 /\ verbose a = 0)) /\
  (debug_levels a <> [] ->
     forall a', debug_levels a' = debug_levels a ->
                resolve_levels a' = resolve_levels a) /\
  (debug_levels a = [] -> quiet a <> 0 ->
     resolve_levels a = debug_level.none) /\
  (debug_levels a = [] -> quiet a = 0 -> verbose a <> 0 ->
     resolve_levels a = debug_level.all) /\
  (debug_levels a = [] -> quiet a = 0 -> verbose a = 0 ->
     forall a', debug_levels a' = [] -> quiet a' = 0 -> verbose a' = 0 ->
                verbosity_level a' = verbosity_level a ->
                resolve_levels a' = resolve_levels a) /\
  (debug_levels a = [] -> quiet a <> 0 -> verbose a <> 0 ->
     resolve_levels a = debug_level.none).
Proof.
  split; [| repeat split].
  - destruct (debug_levels a); [right | left; discriminate].
    destruct (Z.eq_dec (quiet a) 0); [right | left; now split].
    destruct (Z.eq_dec (verbose a) 0); [right | left]; now repeat split.
  - intros Hne a' Heq.
    rewrite (resolve_by_names a Hne).
    rewrite resolve_by_names by (rewrite Heq; exact Hne).
    now rewrite Heq.
  - apply resolve_quiet.
  - apply resolve_verbose.
  - intros Hl Hq Hv a' Hl' Hq' Hv' Heq.
    rewrite (resolve_numeric a Hl Hq Hv), (resolve_numeric a' Hl' Hq' Hv').
    now rewrite Heq.
  - intros Hl Hq _. now apply resolve_quiet.
Qed.

Lemma resolve_precedence_witness :
  resolve_levels (mkDebugCmdArgs TRUE TRUE 5 [] TRUE 0) = debug_level.none.
Proof.
  apply (proj2 (proj2 (proj2 (proj2 (proj2
           (resolve_precedence (mkDebugCmdArgs TRUE TRUE 5 [] TRUE 0))))))).
  - reflexivity.
  - discriminate.
  - discriminate.
Defined.

(** C2: with a non-empty vector of names the level set is exactly the OR of
    the bits of the level names that occur in the vector, whatever [quiet],
    [verbose] and the number are: a level is on if and only if its name is
    an element of the vector, so that other names and repetitions change
    nothing. *)
Theorem resolve_explicit_levels (a : DebugCmdArgs) (Hne : debug_levels a <> []) :
  resolve_levels a =
    debug_level.of_list
      (filter (fun f => found (debug_levels a) (debug_level.name f)) debug_level.flags) /\
  (forall f, debug_level.enabled_in (resolve_levels a) f = true <->
             In (debug_level.name f) (debug_levels a)) /\
  (forall q v n c e,
     resolve_levels (mkDebugCmdArgs v q n (debug_levels a) c e) = resolve_levels a) /\
  (forall a', debug_levels a' <> [] ->
     (forall f, In (debug_level.name f) (debug_levels a') <->
                In (debug_level.name f) (debug_levels a)) ->
     resolve_levels a' = resolve_levels a).
Proof.
  split; [| split; [| split]].
  - exact (resolve_by_names a Hne).
  - intros f. rewrite (resolve_by_names a Hne), enabled_in_levels_where.
    apply found_In.
  - intros q v n c e. rewrite (resolve_by_names a Hne).
    now rewrite resolve_by_names.
  - intros a' Hne' Hsame.
    rewrite (resolve_by_names a Hne), (resolve_by_names a' Hne').
    apply levels_where_ext. intros f.
    apply eq_true_iff_eq. rewrite !found_In. apply Hsame.
Qed.

Lemma resolve_explicit_levels_witness :
  resolve_levels (mkDebugCmdArgs TRUE TRUE 0 ["warn"; "bogus"; "error"; "warn"] TRUE 0) =
  debug_level.of_list [debug_level.warn; debug_level.error].
Proof.
  apply (proj1 (resolve_explicit_levels
                  (mkDebugCmdArgs TRUE TRUE 0 ["warn"; "bogus"; "error"; "warn"] TRUE 0)
                  ltac:(discriminate))).
Defined.

(** C3: with no names, [quiet] and [verbose] both clear, the level set has
    fatal iff the number exceeds 0, error iff it exceeds 1, warn iff it
    exceeds 2, info iff it exceeds 3, dump iff it exceeds 4, and no other
    bit.  The set is nested: a level that is on has every more severe level
    on.  A number of 0 or less gives [none], of 5 or more gives [all]. *)
Theorem resolve_numeric_fallback (a : DebugCmdArgs)
    (Hl : debug_levels a = []) (Hq : quiet a = FALSE) (Hv : verbose a = FALSE) :
  debug_level.enabled_in (resolve_levels a) debug_level.fatal = (verbosity_level a >? 0) /\
  debug_level.enabled_in (resolve_levels a) debug_level.error = (verbosity_level a >? 1) /\
  debug_level.enabled_in (resolve_levels a) debug_level.warn = (verbosity_level a >? 2) /\
  debug_level.enabled_in (resolve_levels a) debug_level.info = (verbosity_level a >? 3) /\
  debug_level.enabled_in (resolve_levels a) debug_level.dump = (verbosity_level a >? 4) /\
  0 <= resolve_levels a <= debug_level.all /\
  (forall f g, debug_level.pos f <= debug_level.pos g ->
     debug_level.enabled_in (resolve_levels a) f = true ->
     debug_level.enabled_in (resolve_levels a) g = true) /\
  (verbosity_level a <= 0 -> resolve_levels a = debug_level.none) /\
  (5 <= verbosity_level a -> resolve_levels a = debug_level.all).
Proof.
  rewrite (resolve_numeric a Hl Hq Hv).
  repeat match goal with |- _ /\ _ => split end;
    try (rewrite enabled_in_levels_where; reflexivity).
  - apply levels_where_range.
  - apply levels_where_range.
  - intros f g Hfg. rewrite !enabled_in_levels_where.
    unfold threshold. intros Hf.
    apply Z.gtb_lt in Hf. apply Z.gtb_lt. lia.
  - intros H0. destruct (numeric_table (verbosity_level a))
      as [[_ E] | [[V _] | [[V _] | [[V _] | [[V _] | [V _]]]]]];
      [exact E | lia ..].
  - intros H5. destruct (numeric_table (verbosity_level a))
      as [[V _] | [[V _] | [[V _] | [[V _] | [[V _] | [_ E]]]]]];
      [lia .. | exact E].
Qed.

Lemma resolve_numeric_fallback_witness :
  debug_level.enabled_in (resolve_levels (mkDebugCmdArgs FALSE FALSE 3 [] TRUE 0))
    debug_level.warn = (3 >? 2).
Proof.
  apply (proj1 (proj2 (proj2
    (resolve_numeric_fallback (mkDebugCmdArgs FALSE FALSE 3 [] TRUE 0)
       eq_refl eq_refl eq_refl)))).
Defined.

(** C6: computing the level set never fails.  For every holder the hook
    returns true and leaves in [levels_enabled] a set of levels: the OR of
    the bits of some of the five levels, hence between [none] and [all],
    with no bit outside the five. *)
Theorem resolve_total_valid (a : DebugCmdArgs) :
  (exists l : list debug_level.flag, resolve_levels a = debug_level.of_list l) /\
  0 <= resolve_levels a <= debug_level.all /\
  debug_level.subset (resolve_levels a) debug_level.all /\
  (forall i, i < 0 \/ debug_level.bits <= i -> Z.testbit (resolve_levels a) i = false) /\
  (forall fb cp dm st,
     fst (fst (debug_internal_post_parse_func fb cp a dm st)) = true /\
     levels_enabled (snd (fst (debug_internal_post_parse_func fb cp a dm st))) =
       resolve_levels a).
Proof.
  destruct (resolve_is_levels_where a) as [p Hp]. rewrite Hp.
  split; [| split; [| split; [| split]]].
  - eexists. reflexivity.
  - apply levels_where_range.
  - apply levels_where_subset_all.
  - intros i Hi. destruct Hi as [Hi | Hi].
    + now apply Z.testbit_neg_r.
    + pose proof (levels_where_range p) as [Hlo Hhi].
      destruct (Z.eq_dec (levels_where p) 0) as [E | E].
      * rewrite E. apply Z.testbit_0_l.
      * apply Z.bits_above_log2; [exact Hlo |].
        apply Z.log2_lt_pow2; [lia |].
        apply Z.lt_le_trans with (2 ^ debug_level.bits).
        -- change (2 ^ debug_level.bits) with 32.
           change debug_level.all with 31 in Hhi. lia.
        -- apply Z.pow_le_mono_r; lia.
  - intros fb cp dm st. split; [reflexivity | exact Hp].
Qed.

(** C7: in the numeric branch the level set grows with the number: for
    numbers v1 <= v2 every level that is on for v1 is on for v2.  The
    number 0 gives [none], a number of 5 or more gives [all]. *)
Theorem resolve_numeric_monotone (a1 a2 : DebugCmdArgs)
    (Hl1 : debug_levels a1 = []) (Hq1 : quiet a1 = FALSE) (Hv1 : verbose a1 = FALSE)
    (Hl2 : debug_levels a2 = []) (Hq2 : quiet a2 = FALSE) (Hv2 : verbose a2 = FALSE)
    (Hle : verbosity_level a1 <= verbosity_level a2) :
  debug_level.subset (resolve_levels a1) (resolve_levels a2) /\
  (forall f, debug_level.enabled_in (resolve_levels a1) f = true ->
             debug_level.enabled_in (resolve_levels a2) f = true) /\
  (verbosity_level a1 = 0 -> resolve_levels a1 = debug_level.none) /\
  (5 <= verbosity_level a2 -> resolve_levels a2 = debug_level.all).
Proof.
  rewrite (resolve_numeric a1 Hl1 Hq1 Hv1).
  rewrite (resolve_numeric a2 Hl2 Hq2 Hv2).
  assert (Hmono : forall f, (verbosity_level a1 >? threshold f) = true ->
                            (verbosity_level a2 >? threshold f) = true).
  { intros f Hf. apply Z.gtb_lt in Hf. apply Z.gtb_lt. lia. }
  split; [| split; [| split]].
  - now apply levels_where_subset.
  - intros f. rewrite !enabled_in_levels_where. apply Hmono.
  - intros H0. destruct (numeric_table (verbosity_level a1))
      as [[_ E] | [[V _] | [[V _] | [[V _] | [[V _] | [V _]]]]]];
      [exact E | lia ..].
  - intros H5. destruct (numeric_table (verbosity_level a2))
      as [[V _] | [[V _] | [[V _] | [[V _] | [[V _] | [_ E]]]]]];
      [lia .. | exact E].
Qed.

Lemma resolve_numeric_monotone_witness :
  debug_level.subset
    (resolve_levels (mkDebugCmdArgs FALSE FALSE 2 [] TRUE 0))
    (resolve_levels (mkDebugCmdArgs FALSE FALSE 4 [] FALSE 0)).
Proof.
  apply (proj1 (resolve_numeric_monotone
                  (mkDebugCmdArgs FALSE FALSE 2 [] TRUE 0)
                  (mkDebugCmdArgs FALSE FALSE 4 [] FALSE 0)
                  eq_refl eq_refl eq_refl eq_refl eq_refl eq_refl
                  ltac:(simpl; lia))).
Defined.

(** ** The pass over the domain map *)

Lemma enabled_in_testbit (levels : Z) (f : debug_level.flag) :
  debug_level.enabled_in levels f = Z.testbit levels (debug_level.pos f).
Proof.
  unfold debug_level.enabled_in, debug_level.bit.
  assert (Hpos : 0 <= debug_level.pos f) by (destruct f; simpl; lia).
  rewrite Z.shiftl_1_l.
  destruct (Z.testbit levels (debug_level.pos f)) eqn:E.
  - destruct (Z.eqb_spec (Z.land levels (2 ^ debug_level.pos f)) 0) as [H0 | H0];
      [| reflexivity].
    assert (Hb : Z.testbit (Z.land levels (2 ^ debug_level.pos f)) (debug_level.pos f) = true).
    { rewrite Z.land_spec, E, Z.pow2_bits_true by exact Hpos. reflexivity. }
    rewrite H0, Z.testbit_0_l in Hb. discriminate.
  - replace (Z.land levels (2 ^ debug_level.pos f)) with 0; [reflexivity |].
    symmetry. apply Z.bits_inj'. intros n Hn.
    rewrite Z.land_spec, Z.testbit_0_l, Z.pow2_bits_eqb by exact Hpos.
    destruct (Z.eqb_spec (debug_level.pos f) n) as [Heq | _].
    + subst n. now rewrite E.
    + apply andb_false_r.
Qed.

Lemma registered_entries (dm : domain_map_t) (l : debug_level.flag) (h : handle) :
  registered dm l h <-> In (l, h) (entries dm).
Proof.
  unfold registered, entries. rewrite in_flat_map. split.
  - intros [d [lm [Hd Hl]]]. exists (d, lm). now split.
  - intros [[d lm] [Hd Hl]]. exists d, lm. now split.
Qed.

Lemma last_level_snoc (es : list (debug_level.flag * handle))
    (e : debug_level.flag * handle) (h : handle) :
  last_level (es ++ [e]) h =
  if Nat.eqb h (snd e) then Some (fst e) else last_level es h.
Proof. unfold last_level. now rewrite fold_left_app. Qed.

Lemma last_level_none (es : list (debug_level.flag * handle)) (h : handle) :
  last_level es h = None <-> forall l, ~ In (l, h) es.
Proof.
  induction es as [| e es IH] using rev_ind.
  - split; [intros _ l [] | reflexivity].
  - rewrite last_level_snoc. destruct e as [l0 h0]. simpl.
    destruct (Nat.eqb_spec h h0) as [-> | Hne].
    + split; [discriminate |]. intros H. exfalso. apply (H l0).
      apply in_or_app. right. now left.
    + rewrite IH. split.
      * intros H l Hin. apply in_app_or in Hin. destruct Hin as [Hin | [Heq | []]].
        -- now apply (H l).
        -- congruence.
      * intros H l Hin. apply (H l). apply in_or_app. now left.
Qed.

Lemma last_level_some (es : list (debug_level.flag * handle)) (h : handle)
    (l : debug_level.flag) :
  last_level es h = Some l -> In (l, h) es.
Proof.
  induction es as [| e es IH] using rev_ind.
  - discriminate.
  - rewrite last_level_snoc. destruct e as [l0 h0]. simpl.
    destruct (Nat.eqb_spec h h0) as [-> | Hne].
    + intros [= ->]. apply in_or_app. right. now left.
    + intros H. apply in_or_app. left. now apply IH.
Qed.

(** A stream with one level of its own has that level in its last entry. *)
Lemma last_level_own (es : list (debug_level.flag * handle)) (h : handle)
    (l : debug_level.flag) :
  In (l, h) es -> (forall l', In (l', h) es -> l' = l) -> last_level es h = Some l.
Proof.
  intros Hin Hown. destruct (last_level es h) as [l' |] eqn:E.
  - f_equal. apply Hown. now apply last_level_some.
  - exfalso. rewrite last_level_none in E. now apply (E l).
Qed.

Section Propagation.

Variable format_bits : Z.
Variable color_pos : Z.

Lemma with_color_idem (c : bool) (f : Z) :
  with_color format_bits color_pos c (with_color format_bits color_pos c f) =
  with_color format_bits color_pos c f.
Proof.
  unfold with_color. destruct c.
  - now rewrite <- Z.lor_assoc, Z.lor_diag.
  - now rewrite <- Z.land_assoc, Z.land_diag.
Qed.

Lemma propagate_entries (L : Z) (c : bool) (dm : domain_map_t) (st : Store) :
  propagate format_bits color_pos L c dm st =
  fold_left (visit format_bits color_pos L c) (entries dm) st.
Proof.
  unfold propagate, entries. revert st.
  induction dm as [| d dm IH]; intros st; [reflexivity |].
  simpl. rewrite fold_left_app. apply IH.
Qed.

(** The state of a stream after the loop: untouched when no entry points to
    it; else enabled as the level of the last entry that points to it says,
    with the colour bit of its format adjusted. *)
Lemma visit_all (L : Z) (c : bool) (es : list (debug_level.flag * handle))
    (st : Store) (h : handle) :
  fold_left (visit format_bits color_pos L c) es st h =
  match last_level es h with
  | None => st h
  | Some l =>
      {| is_enabled := debug_level.enabled_in L l;
         format := with_color format_bits color_pos c (format (st h)) |}
  end.
Proof.
  induction es as [| e es IH] using rev_ind; [reflexivity |].
  rewrite fold_left_app, last_level_snoc. simpl.
  unfold visit at 1. unfold store_set.
  destruct (Nat.eqb h (snd e)) eqn:E; [| exact IH].
  apply Nat.eqb_eq in E. subst h.
  unfold set_format, set_enabled, get_format. cbn [is_enabled format].
  fold (with_color format_bits color_pos c
          (format (fold_left (visit format_bits color_pos L c) es st (snd e)))).
  rewrite IH. destruct (last_level es (snd e)); cbn [format]; [| reflexivity].
  now rewrite with_color_idem.
Qed.

Lemma propagate_at (L : Z) (c : bool) (dm : domain_map_t) (st : Store) (h : handle) :
  propagate format_bits color_pos L c dm st h =
  match last_level (entries dm) h with
  | None => st h
  | Some l =>
      {| is_enabled := debug_level.enabled_in L l;
         format := with_color format_bits color_pos c (format (st h)) |}
  end.
Proof. rewrite propagate_entries. apply visit_all. Qed.

(** A stream that the domain map does not reach is left as it was. *)
Lemma propagate_frame (L : Z) (c : bool) (dm : domain_map_t) (st : Store) (h : handle) :
  (forall l, ~ registered dm l h) ->
  propagate format_bits color_pos L c dm st h = st h.
Proof.
  intros H. rewrite propagate_at.
  replace (last_level (entries dm) h) with (@None debug_level.flag); [reflexivity |].
  symmetry. apply last_level_none. intros l Hin. apply (H l).
  now apply registered_entries.
Qed.

Lemma propagate_format (L : Z) (c : bool) (dm : domain_map_t) (st : Store)
    (l : debug_level.flag) (h : handle) :
  registered dm l h ->
  format (propagate format_bits color_pos L c dm st h) =
  with_color format_bits color_pos c (format (st h)).
Proof.
  intros H. rewrite propagate_at.
  destruct (last_level (entries dm) h) eqn:E; [reflexivity |].
  exfalso. rewrite last_level_none in E. apply (E l). now apply registered_entries.
Qed.

(** A stream with one level of its own ends up enabled as that level's bit
    in the level set says. *)
Lemma propagate_own_level (L : Z) (c : bool) (dm : domain_map_t) (st : Store)
    (l : debug_level.flag) (h : handle) :
  own_level dm h l ->
  is_enabled (propagate format_bits color_pos L c dm st h) =
  debug_level.enabled_in L l.
Proof.
  intros [Hreg Hown]. rewrite propagate_at.
  rewrite (last_level_own (entries dm) h l); [reflexivity | |].
  - now apply registered_entries.
  - intros l' Hin. apply Hown. now apply registered_entries.
Qed.

(** The hook is the pass with the level set of the chain and the colour
    switch of the holder. *)
Lemma post_parse_store (a : DebugCmdArgs) (dm : domain_map_t) (st : Store) :
  snd (debug_internal_post_parse_func format_bits color_pos a dm st) =
  propagate format_bits color_pos (resolve_levels a) (truthy (debug_colorize a)) dm st.
Proof. reflexivity. Qed.

Lemma post_parse_args (a : DebugCmdArgs) (dm : domain_map_t) (st : Store) :
  snd (fst (debug_internal_post_parse_func format_bits color_pos a dm st)) =
  set_levels_enabled a (resolve_levels a).
Proof. reflexivity. Qed.

End Propagation.

(** The bits of a format after a visit with colour on: the colour bit is
    set, every other bit is as before. *)
Lemma with_color_on_bits (format_bits color_pos : Z) (f i : Z) :
  0 <= color_pos < format_bits -> 0 <= i ->
  Z.testbit (with_color format_bits color_pos true f) i =
  if i =? color_pos then true else Z.testbit f i.
Proof.
  intros Hc Hi. unfold with_color, to_bitset, debug_format_color.
  rewrite Z.shiftl_1_l.
  rewrite Z.lor_spec, Z.land_spec, Z.pow2_bits_eqb by lia.
  rewrite (Z.eqb_sym color_pos i).
  destruct (Z.eqb_spec i color_pos) as [-> | Hne].
  - rewrite Z.ones_spec_low by lia. apply orb_true_r.
  - now rewrite orb_false_r.
Qed.

(** With colour off the colour bit is cleared; the mask is an unsigned long,
    so the other bits are kept as far as the unsigned long reaches. *)
Lemma with_color_off_bits (format_bits color_pos : Z) (f i : Z) :
  0 <= color_pos < format_bits -> format_bits <= ulong_bits ->
  0 <= i < format_bits ->
  Z.testbit (with_color format_bits color_pos false f) i =
  if i =? color_pos then false else Z.testbit f i.
Proof.
  intros Hc Hw Hi. unfold with_color, to_bitset, ulong_not, debug_format_color.
  rewrite Z.shiftl_1_l.
  rewrite !Z.land_spec, Z.lxor_spec, Z.pow2_bits_eqb by lia.
  rewrite !Z.ones_spec_low by lia.
  rewrite (Z.eqb_sym color_pos i).
  destruct (i =? color_pos); [apply andb_false_r | now rewrite andb_true_r].
Qed.

Lemma with_color_bits (format_bits color_pos : Z) (c : bool) (f i : Z) :
  0 <= color_pos < format_bits -> format_bits <= ulong_bits ->
  0 <= i < format_bits ->
  Z.testbit (with_color format_bits color_pos c f) i =
  if i =? color_pos then c else Z.testbit f i.
Proof.
  intros Hc Hw Hi. destruct c.
  - apply with_color_on_bits; lia.
  - now apply with_color_off_bits.
Qed.

Lemma with_color_bitset (format_bits color_pos : Z) (c : bool) (f : Z) :
  0 <= format_bits ->
  bitset_value format_bits f ->
  bitset_value format_bits (with_color format_bits color_pos c f).
Proof.
  unfold bitset_value. intros Hw [Hlo Hhi].
  assert (Hbits : forall g, 0 <= g ->
            (forall i, format_bits <= i -> Z.testbit g i = false) -> g < 2 ^ format_bits).
  { intros g Hg Hb. destruct (Z.eq_dec g 0) as [-> | Hne].
    - apply Z.pow_pos_nonneg; lia.
    - apply Z.log2_lt_pow2; [lia |].
      destruct (Z.lt_ge_cases (Z.log2 g) format_bits) as [Hlt | Hge]; [exact Hlt |].
      specialize (Hb _ Hge). rewrite Z.bit_log2 in Hb by lia. discriminate. }
  assert (Hf : forall i, format_bits <= i -> Z.testbit f i = false).
  { intros i Hi. destruct (Z.eq_dec f 0) as [-> | Hne]; [apply Z.testbit_0_l |].
    apply Z.bits_above_log2; [exact Hlo |].
    apply Z.lt_le_trans with format_bits; [| exact Hi].
    apply Z.log2_lt_pow2; lia. }
  assert (Hmask : forall v i, format_bits <= i ->
            Z.testbit (to_bitset format_bits v) i = false).
  { intros v i Hi. unfold to_bitset.
    rewrite Z.land_spec, Z.ones_spec_high by lia. apply andb_false_r. }
  assert (Hmask0 : forall v, 0 <= to_bitset format_bits v).
  { intros v. unfold to_bitset. apply Z.land_nonneg. right.
    rewrite Z.ones_equiv. pose proof (Z.pow_pos_nonneg 2 format_bits). lia. }
  unfold with_color. destruct c.
  - split.
    + apply Z.lor_nonneg. split; [exact Hlo | apply Hmask0].
    + apply Hbits.
      * apply Z.lor_nonneg. split; [exact Hlo | apply Hmask0].
      * intros i Hi. now rewrite Z.lor_spec, Hf, Hmask.
  - split.
    + apply Z.land_nonneg. now left.
    + apply Hbits.
      * apply Z.land_nonneg. now left.
      * intros i Hi. now rewrite Z.land_spec, Hf.
Qed.

(** C4: after the pass a stream of the domain map is enabled if and only if
    the bit of its own level is in the level set; a non-empty set is not
    enough.  This holds for every domain map, every state of the streams
    and every level set, and so for the hook with the level set it
    computes. *)
Theorem propagate_enabled (format_bits color_pos : Z) (L : Z) (c : bool)
    (dm : domain_map_t) (st : Store) (l : debug_level.flag) (h : handle)
    (Hown : own_level dm h l) :
  is_enabled (propagate format_bits color_pos L c dm st h) =
    Z.testbit L (debug_level.pos l) /\
  (is_enabled (propagate format_bits color_pos L c dm st h) = true <->
     Z.land L (debug_level.bit l) <> 0) /\
  (forall a,
     is_enabled (snd (debug_internal_post_parse_func format_bits color_pos a dm st) h) =
       Z.testbit (resolve_levels a) (debug_level.pos l)).
Proof.
  split; [| split].
  - rewrite (propagate_own_level _ _ _ _ _ _ l h Hown).
    apply enabled_in_testbit.
  - rewrite (propagate_own_level _ _ _ _ _ _ l h Hown).
    unfold debug_level.enabled_in. rewrite negb_true_iff. apply Z.eqb_neq.
  - intros a. rewrite post_parse_store.
    rewrite (propagate_own_level _ _ _ _ _ _ l h Hown).
    apply enabled_in_testbit.
Qed.

(** The stream 2 is the dump stream of the domain app; with fatal alone in
    the level set, which is not empty, the pass disables it. *)
Lemma propagate_enabled_witness :
  is_enabled
    (propagate 5 3 (debug_level.of_list [debug_level.fatal]) true
       [("app", [(debug_level.dump, 2%nat); (debug_level.fatal, 3%nat)]);
        ("default", [(debug_level.dump, 0%nat); (debug_level.fatal, 1%nat)])]
       (fun _ => mkDebugOutStream true 0) 2%nat) = false.
Proof.
  apply (proj1 (propagate_enabled 5 3 (debug_level.of_list [debug_level.fatal]) true
       [("app", [(debug_level.dump, 2%nat); (debug_level.fatal, 3%nat)]);
        ("default", [(debug_level.dump, 0%nat); (debug_level.fatal, 1%nat)])]
       (fun _ => mkDebugOutStream true 0) debug_level.dump 2%nat
       ltac:(split;
             [ apply registered_entries; simpl; auto
             | intros l' Hl'; apply registered_entries in Hl'; simpl in Hl';
               intuition congruence ]))).
Defined.

(** C5: for every stream of the domain map the pass writes back a format
    whose colour bit is set when colour is enabled and cleared when it is
    not, and whose other bits are the bits the format had before the pass;
    the format stays a value of the bitset.  The colour bit is a bit of the
    format bitset, which fits an unsigned long. *)
Theorem propagate_format_color (format_bits color_pos : Z)
    (Hcolor : 0 <= color_pos < format_bits) (Hwidth : format_bits <= ulong_bits)
    (L : Z) (c : bool) (dm : domain_map_t) (st : Store)
    (l : debug_level.flag) (h : handle) (Hreg : registered dm l h) :
  Z.testbit (format (propagate format_bits color_pos L c dm st h)) color_pos = c /\
  (forall i, 0 <= i < format_bits -> i <> color_pos ->
     Z.testbit (format (propagate format_bits color_pos L c dm st h)) i =
     Z.testbit (format (st h)) i) /\
  (bitset_value format_bits (format (st h)) ->
     bitset_value format_bits (format (propagate format_bits color_pos L c dm st h)) /\
     forall i, i <> color_pos ->
       Z.testbit (format (propagate format_bits color_pos L c dm st h)) i =
       Z.testbit (format (st h)) i) /\
  (forall a,
     Z.testbit
       (format (snd (debug_internal_post_parse_func format_bits color_pos a dm st) h))
       color_pos = truthy (debug_colorize a)).
Proof.
  rewrite (propagate_format format_bits color_pos L c dm st l h Hreg).
  split; [| split; [| split]].
  - rewrite with_color_bits by lia. now rewrite Z.eqb_refl.
  - intros i Hi Hne. rewrite with_color_bits by lia.
    apply Z.eqb_neq in Hne. now rewrite Hne.
  - intros Hval.
    pose proof (with_color_bitset format_bits color_pos c (format (st h))
                  ltac:(lia) Hval) as Hval'.
    split; [exact Hval' |].
    intros i Hne.
    destruct (Z.lt_ge_cases i 0) as [Hneg | Hnn].
    { now rewrite !Z.testbit_neg_r. }
    destruct (Z.lt_ge_cases i format_bits) as [Hlt | Hge].
    { rewrite with_color_bits by lia. apply Z.eqb_neq in Hne. now rewrite Hne. }
    assert (Hhigh : forall g, bitset_value format_bits g -> Z.testbit g i = false).
    { intros g [Hlo Hhi]. destruct (Z.eq_dec g 0) as [-> | Hg]; [apply Z.testbit_0_l |].
      apply Z.bits_above_log2; [exact Hlo |].
      apply Z.lt_le_trans with format_bits; [| exact Hge].
      apply Z.log2_lt_pow2; lia. }
    now rewrite (Hhigh _ Hval), (Hhigh _ Hval').
  - intros a. rewrite post_parse_store.
    rewrite (propagate_format _ _ _ _ _ _ l h Hreg).
    rewrite with_color_bits by lia. now rewrite Z.eqb_refl.
Qed.

Lemma propagate_format_color_witness :
  Z.testbit
    (format (propagate 5 3 debug_level.all false
               [("default", [(debug_level.warn, 7%nat)])]
               (fun _ => mkDebugOutStream true 31) 7%nat)) 3 = false.
Proof.
  apply (proj1 (propagate_format_color 5 3 ltac:(lia) ltac:(unfold ulong_bits; lia)
                  debug_level.all false
                  [("default", [(debug_level.warn, 7%nat)])]
                  (fun _ => mkDebugOutStream true 31) debug_level.warn 7%nat
                  ltac:(exists "default", [(debug_level.warn, 7%nat)]; simpl; auto))).
Defined.

Lemma resolve_levels_set_levels_enabled (a : DebugCmdArgs) (L : debug_level.types) :
  resolve_levels (set_levels_enabled a L) = resolve_levels a.
Proof. reflexivity. Qed.

(** C8: the pass is idempotent.  For every domain map, every state of the
    streams, every level set and colour switch, a second pass with the same
    level set and switch leaves each stream, its enabled flag and its
    format, as the first pass left it; the same holds for the hook run
    twice on its holder. *)
Theorem propagate_idempotent (format_bits color_pos : Z) (L : Z) (c : bool)
    (dm : domain_map_t) (st : Store) (h : handle) :
  propagate format_bits color_pos L c dm
    (propagate format_bits color_pos L c dm st) h =
  propagate format_bits color_pos L c dm st h /\
  (forall a,
     snd (fst (debug_internal_post_parse_func format_bits color_pos
                 (snd (fst (debug_internal_post_parse_func format_bits color_pos a dm st)))
                 dm
                 (snd (debug_internal_post_parse_func format_bits color_pos a dm st)))) =
     snd (fst (debug_internal_post_parse_func format_bits color_pos a dm st)) /\
     snd (debug_internal_post_parse_func format_bits color_pos
            (snd (fst (debug_internal_post_parse_func format_bits color_pos a dm st)))
            dm
            (snd (debug_internal_post_parse_func format_bits color_pos a dm st))) h =
     snd (debug_internal_post_parse_func format_bits color_pos a dm st) h).
Proof.
  assert (Hidem : forall L' c',
            propagate format_bits color_pos L' c' dm
              (propagate format_bits color_pos L' c' dm st) h =
            propagate format_bits color_pos L' c' dm st h).
  { intros L' c'.
    rewrite (propagate_at _ _ L' c' dm (propagate format_bits color_pos L' c' dm st) h).
    rewrite (propagate_at _ _ L' c' dm st h).
    destruct (last_level (entries dm) h); [| reflexivity].
    cbn [format]. now rewrite with_color_idem. }
  split; [apply Hidem |].
  intros a. unfold debug_internal_post_parse_func.
  cbn [fst snd levels_enabled debug_colorize set_levels_enabled].
  rewrite resolve_levels_set_levels_enabled.
  split; [reflexivity | apply Hidem].
Qed.

(** ** The callback of [--debug-levels] *)

Lemma string_app_nil_r (s : string) : (s ++ "")%string = s.
Proof. induction s as [| c s IH]; [reflexivity | simpl; now rewrite IH]. Qed.

Lemma string_app_assoc (a b c : string) : ((a ++ b) ++ c = a ++ (b ++ c))%string.
Proof. induction a as [| x a IH]; [reflexivity | simpl; now rewrite IH]. Qed.

Lemma pieces_not_nil (d : ascii) (s cur : string) : pieces d s cur <> [].
Proof.
  revert cur. induction s as [| c s IH]; intros cur; simpl; [discriminate |].
  destruct (Ascii.eqb c d); [discriminate | apply IH].
Qed.

(** Joining the pieces with the delimiter gives the string back. *)
Lemma pieces_concat (d : ascii) (s cur : string) :
  String.concat (String d EmptyString) (pieces d s cur) = (cur ++ s)%string.
Proof.
  revert cur. induction s as [| c s IH]; intros cur.
  - simpl. now rewrite string_app_nil_r.
  - simpl. destruct (Ascii.eqb_spec c d) as [-> | Hne].
    + specialize (IH EmptyString). simpl in IH.
      destruct (pieces d s EmptyString) as [| p ps] eqn:E.
      * exfalso. revert E. apply pieces_not_nil.
      * change (String.concat (String d EmptyString) (cur :: p :: ps))
          with (cur ++ String d EmptyString ++
                String.concat (String d EmptyString) (p :: ps))%string.
        now rewrite IH.
    + rewrite IH. now rewrite string_app_assoc.
Qed.

Lemma string_forall_app (p : ascii -> bool) (s t : string) :
  string_forall p (s ++ t) = string_forall p s && string_forall p t.
Proof.
  induction s as [| c s IH]; [reflexivity |].
  simpl. now rewrite IH, andb_assoc.
Qed.

Lemma pieces_no_delimiter (d : ascii) (s cur p : string) :
  has_char d cur = false -> In p (pieces d s cur) -> has_char d p = false.
Proof.
  revert cur. induction s as [| c s IH]; intros cur Hcur Hin.
  - simpl in Hin. destruct Hin as [<- | []]. exact Hcur.
  - simpl in Hin. destruct (Ascii.eqb c d) eqn:E.
    + destruct Hin as [<- | Hin]; [exact Hcur |].
      now apply (IH EmptyString).
    + apply (IH (cur ++ String c EmptyString)%string); [| exact Hin].
      unfold has_char in *. rewrite string_forall_app.
      apply negb_false_iff in Hcur. rewrite Hcur. simpl. now rewrite E.
Qed.

Lemma has_char_cons (d c : ascii) (s : string) :
  has_char d (String c s) = false -> Ascii.eqb c d = false /\ has_char d s = false.
Proof.
  unfold has_char. cbn [string_forall]. rewrite !negb_false_iff, andb_true_iff.
  intros [H1 H2]. split; [now apply negb_true_iff | exact H2].
Qed.

(** Reading a piece that holds no delimiter moves it to the piece being
    read. *)
Lemma pieces_app_no_delimiter (d : ascii) (seg s cur : string) :
  has_char d seg = false ->
  pieces d (seg ++ s) cur = pieces d s (cur ++ seg).
Proof.
  revert cur. induction seg as [| c seg IH]; intros cur Hseg.
  - cbn [append]. now rewrite string_app_nil_r.
  - apply has_char_cons in Hseg. destruct Hseg as [Hc Hseg].
    cbn [append pieces]. rewrite Hc, (IH _ Hseg), string_app_assoc. reflexivity.
Qed.

(** Splitting undoes joining: the pieces of a join of strings that hold no
    delimiter are these strings. *)
Lemma pieces_join (d : ascii) (p : string) (ps : list string) :
  (forall q, In q (p :: ps) -> has_char d q = false) ->
  pieces d (String.concat (String d EmptyString) (p :: ps)) EmptyString = p :: ps.
Proof.
  revert p. induction ps as [| q ps IH]; intros p Hfree.
  - cbn [String.concat].
    rewrite <- (string_app_nil_r p) at 1.
    rewrite pieces_app_no_delimiter by (apply Hfree; now left).
    reflexivity.
  - change (String.concat (String d EmptyString) (p :: q :: ps))
      with (p ++ String d (String.concat (String d EmptyString) (q :: ps)))%string.
    rewrite pieces_app_no_delimiter by (apply Hfree; now left).
    cbn [pieces append]. rewrite Ascii.eqb_refl. f_equal.
    apply IH. intros r Hr. apply Hfree. now right.
Qed.

Lemma pieces_join_nonempty (d : ascii) (segs : list string) :
  (forall q, In q segs -> has_char d q = false) ->
  filter nonempty (pieces d (String.concat (String d EmptyString) segs) EmptyString) =
  filter nonempty segs.
Proof.
  intros Hfree. destruct segs as [| p ps]; [reflexivity |].
  now rewrite pieces_join.
Qed.

(** The vector after a sequence of calls, by the pieces of the values. *)
Lemma parse_levels_all_pieces (values : list (option string)) (data : DebugCmdArgs) :
  debug_levels (parse_levels_all values data) =
    (debug_levels data ++
     List.concat (map (fun v => match v with
                           | None => []
                           | Some s => filter nonempty (pieces "," s EmptyString)
                           end) values))%list /\
  parse_levels_all values data =
    set_debug_levels data (debug_levels (parse_levels_all values data)).
Proof.
  revert data. induction values as [| v values IH]; intros data.
  - simpl. rewrite app_nil_r. split; [reflexivity | now destruct data].
  - unfold parse_levels_all in *. cbn [fold_left map List.concat].
    destruct (IH (snd (debug_internal_parse_levels v data))) as [IH1 IH2].
    split.
    + rewrite IH1. destruct v as [s |]; cbn [debug_internal_parse_levels snd].
      * cbn [set_debug_levels debug_levels string_split]. now rewrite app_assoc.
      * reflexivity.
    + rewrite IH2 at 1. destruct v as [s |]; reflexivity.
Qed.

(** C9: with a null value the callback returns false and leaves the holder
    as it is.  With a string it returns true and changes [debug_levels]
    only: a value is, in one way only, a list of strings without comma
    joined by commas, and the callback pushes those of them that are not
    empty onto the back of [debug_levels], in their order, without clearing
    it.  After any sequence of calls [debug_levels] is its first value
    followed by the segments of all the values, in the order of the calls:
    repeated options accumulate. *)
Theorem parse_levels_accumulates (data : DebugCmdArgs) :
  debug_internal_parse_levels None data = (false, data) /\
  (forall levels,
     fst (debug_internal_parse_levels (Some levels) data) = true /\
     snd (debug_internal_parse_levels (Some levels) data) =
       set_debug_levels data
         (debug_levels (snd (debug_internal_parse_levels (Some levels) data))) /\
     exists segs,
       (forall p, In p segs -> has_char "," p = false) /\
       String.concat "," segs = levels /\
       debug_levels (snd (debug_internal_parse_levels (Some levels) data)) =
         (debug_levels data ++ filter nonempty segs)%list) /\
  (forall segs,
     (forall p, In p segs -> has_char "," p = false) ->
     debug_levels (snd (debug_internal_parse_levels (Some (String.concat "," segs)) data)) =
       (debug_levels data ++ filter nonempty segs)%list) /\
  (forall calls : list (option (list string)),
     (forall segs p, In (Some segs) calls -> In p segs -> has_char "," p = false) ->
     debug_levels
       (parse_levels_all (map (option_map (String.concat ",")) calls) data) =
       (debug_levels data ++
        List.concat (map (fun c => match c with
                              | None => []
                              | Some segs => filter nonempty segs
                              end) calls))%list /\
     parse_levels_all (map (option_map (String.concat ",")) calls) data =
       set_debug_levels data
         (debug_levels
            (parse_levels_all (map (option_map (String.concat ",")) calls) data))) /\
  (forall values : list (option string),
     exists calls : list (option (list string)),
       values = map (option_map (String.concat ",")) calls /\
       forall segs p, In (Some segs) calls -> In p segs -> has_char "," p = false).
Proof.
  split; [reflexivity |]. split; [| split; [| split]].
  - intros levels. split; [reflexivity |]. split; [reflexivity |].
    exists (pieces "," levels EmptyString). split; [| split].
    + intros p Hp. now apply (pieces_no_delimiter "," levels EmptyString).
    + apply (pieces_concat "," levels EmptyString).
    + reflexivity.
  - intros segs Hfree.
    cbn [debug_internal_parse_levels snd set_debug_levels debug_levels].
    unfold string_split. f_equal. now apply pieces_join_nonempty.
  - intros calls Hfree.
    destruct (parse_levels_all_pieces (map (option_map (String.concat ",")) calls) data)
      as [H1 H2].
    split; [| exact H2].
    rewrite H1, map_map. f_equal. f_equal.
    apply map_ext_in. intros [segs |] Hin; [| reflexivity].
    cbn [option_map]. apply pieces_join_nonempty.
    intros q Hq. now apply (Hfree segs).
  - intros values.
    exists (map (option_map (fun s => pieces "," s EmptyString)) values). split.
    + rewrite map_map. rewrite <- (map_id values) at 1.
      apply map_ext. intros [s |]; [| reflexivity].
      cbn [option_map]. f_equal. symmetry.
      apply (pieces_concat "," s EmptyString).
    + intros segs p Hin Hp. apply in_map_iff in Hin.
      destruct Hin as [[s |] [Heq _]]; [| discriminate].
      cbn [option_map] in Heq. injection Heq as <-.
      now apply (pieces_no_delimiter "," s EmptyString).
Qed.

(** Two options, the first with empty segments: the three names are
    appended in their order. *)
Lemma parse_levels_accumulates_witness :
  debug_levels
    (parse_levels_all
       (map (option_map (String.concat ","))
            [Some ["warn"; ""; "error"]; None; Some ["fatal"]])
       (DebugCmdArgs_new false false)) =
  ["warn"; "error"; "fatal"].
Proof.
  apply (proj1 (proj1 (proj2 (proj2 (proj2
           (parse_levels_accumulates (DebugCmdArgs_new false false)))))
           [Some ["warn"; EmptyString; "error"]; None; Some ["fatal"]]
           ltac:(intros segs p Hs Hp; simpl in Hs;
                 destruct Hs as [Hs | [Hs | [Hs | []]]]; inversion Hs; subst;
                 simpl in Hp; intuition (subst; reflexivity)))).
Defined.

(** ** The default holder *)

(** C10: the holder as constructed without [_WIN32] and [DEBUG_BUILD] has
    [verbose] and [quiet] clear, the number 3, no names and colour on; the
    hook then leaves exactly fatal, error and warn in [levels_enabled],
    sets the colour bit in the format of every stream of the domain map,
    and enables a stream if and only if its own level is one of the
    three. *)
Theorem default_args_post_parse (format_bits color_pos : Z)
    (Hcolor : 0 <= color_pos < format_bits)
    (dm : domain_map_t) (st : Store) :
  DebugCmdArgs_new false false = mkDebugCmdArgs FALSE FALSE 3 [] TRUE 0 /\
  levels_enabled
    (snd (fst (debug_internal_post_parse_func format_bits color_pos
                 (DebugCmdArgs_new false false) dm st))) =
    debug_level.of_list [debug_level.warn; debug_level.error; debug_level.fatal] /\
  (forall f,
     debug_level.enabled_in
       (levels_enabled
          (snd (fst (debug_internal_post_parse_func format_bits color_pos
                       (DebugCmdArgs_new false false) dm st)))) f =
     match f with
     | debug_level.warn | debug_level.error | debug_level.fatal => true
     | debug_level.dump | debug_level.info => false
     end) /\
  (forall l h, registered dm l h ->
     Z.testbit
       (format (snd (debug_internal_post_parse_func format_bits color_pos
                       (DebugCmdArgs_new false false) dm st) h))
       color_pos = true) /\
  (forall l h, own_level dm h l ->
     is_enabled (snd (debug_internal_post_parse_func format_bits color_pos
                        (DebugCmdArgs_new false false) dm st) h) =
     match l with
     | debug_level.warn | debug_level.error | debug_level.fatal => true
     | debug_level.dump | debug_level.info => false
     end).
Proof.
  split; [reflexivity |]. split; [reflexivity |]. split; [| split].
  - intros f. destruct f; reflexivity.
  - intros l h Hreg. rewrite post_parse_store.
    rewrite (propagate_format _ _ _ _ _ _ l h Hreg).
    change (truthy (debug_colorize (DebugCmdArgs_new false false))) with true.
    rewrite with_color_on_bits by lia. now rewrite Z.eqb_refl.
  - intros l h Hown. rewrite post_parse_store.
    rewrite (propagate_own_level _ _ _ _ _ _ l h Hown).
    destruct l; reflexivity.
Qed.

Lemma default_args_post_parse_witness :
  levels_enabled
    (snd (fst (debug_internal_post_parse_func 5 3 (DebugCmdArgs_new false false)
                 [("default", [(debug_level.info, 0%nat); (debug_level.error, 1%nat)])]
                 (fun _ => mkDebugOutStream false 0)))) =
  debug_level.of_list [debug_level.warn; debug_level.error; debug_level.fatal].
Proof.
  apply (proj1 (proj2 (default_args_post_parse 5 3
                  ltac:(lia)
                  [("default", [(debug_level.info, 0%nat); (debug_level.error, 1%nat)])]
                  (fun _ => mkDebugOutStream false 0)))).
Defined.

(** * Further properties of the code *)

(** ** The pass, entry by entry *)

Lemma last_level_app (es1 es2 : list (debug_level.flag * handle)) (h : handle) :
  last_level (es1 ++ es2)%list h =
  match last_level es2 h with
  | Some l => Some l
  | None => last_level es1 h
  end.
Proof.
  induction es2 as [| e es2 IH] using rev_ind.
  - now rewrite app_nil_r.
  - rewrite app_assoc, !last_level_snoc.
    destruct (Nat.eqb h (snd e)); [reflexivity | exact IH].
Qed.

Lemma last_level_registered (dm : domain_map_t) (l : debug_level.flag) (h : handle) :
  registered dm l h -> exists l', last_level (entries dm) h = Some l'.
Proof.
  intros Hreg. destruct (last_level (entries dm) h) as [l' |] eqn:E.
  - now exists l'.
  - exfalso. rewrite last_level_none in E. apply (E l). now apply registered_entries.
Qed.

Lemma bitset_value_high (n g i : Z) :
  bitset_value n g -> n <= i -> Z.testbit g i = false.
Proof.
  intros [Hlo Hhi] Hi. destruct (Z.eq_dec g 0) as [-> | Hg]; [apply Z.testbit_0_l |].
  assert (0 <= n).
  { destruct (Z.lt_ge_cases n 0) as [Hn | Hn]; [| exact Hn].
    rewrite Z.pow_neg_r in Hhi by exact Hn. lia. }
  apply Z.bits_above_log2; [exact Hlo |].
  apply Z.lt_le_trans with n; [| exact Hi].
  apply Z.log2_lt_pow2; lia.
Qed.

(** The colour switch of a second visit overrides that of a first one. *)
Lemma with_color_override (format_bits color_pos : Z) (c1 c2 : bool) (f : Z) :
  0 <= color_pos < format_bits -> format_bits <= ulong_bits ->
  bitset_value format_bits f ->
  with_color format_bits color_pos c2 (with_color format_bits color_pos c1 f) =
  with_color format_bits color_pos c2 f.
Proof.
  intros Hc Hw Hf.
  assert (H1 : bitset_value format_bits (with_color format_bits color_pos c1 f))
    by (apply with_color_bitset; [lia | exact Hf]).
  assert (H2 : bitset_value format_bits (with_color format_bits color_pos c2 f))
    by (apply with_color_bitset; [lia | exact Hf]).
  assert (H12 : bitset_value format_bits
            (with_color format_bits color_pos c2 (with_color format_bits color_pos c1 f)))
    by (apply with_color_bitset; [lia | exact H1]).
  apply Z.bits_inj'. intros i Hi.
  destruct (Z.lt_ge_cases i format_bits) as [Hlt | Hge].
  - rewrite !with_color_bits by lia. now destruct (i =? color_pos).
  - now rewrite (bitset_value_high _ _ _ H12 Hge), (bitset_value_high _ _ _ H2 Hge).
Qed.

(** X1: when several entries of the domain map point to one stream, the
    last of them in the order of the loops decides: the stream is enabled
    as the level of that entry says, and its colour bit is adjusted once. *)
Theorem post_parse_last_entry_wins (format_bits color_pos : Z) (a : DebugCmdArgs)
    (dm : domain_map_t) (st : Store)
    (es1 es2 : list (debug_level.flag * handle)) (l : debug_level.flag) (h : handle)
    (Hsplit : entries dm = (es1 ++ (l, h) :: es2)%list)
    (Hlast : forall l', ~ In (l', h) es2) :
  snd (debug_internal_post_parse_func format_bits color_pos a dm st) h =
  {| is_enabled := debug_level.enabled_in (resolve_levels a) l;
     format := with_color format_bits color_pos (truthy (debug_colorize a))
                 (format (st h)) |}.
Proof.
  rewrite post_parse_store, propagate_at, Hsplit.
  change ((l, h) :: es2) with ([(l, h)] ++ es2)%list.
  rewrite app_assoc, last_level_app.
  replace (last_level es2 h) with (@None debug_level.flag)
    by (symmetry; now apply last_level_none).
  rewrite last_level_snoc. cbn [snd fst]. now rewrite Nat.eqb_refl.
Qed.

(** One stream held as dump and as fatal stream: with fatal alone in the
    level set it ends up enabled, as the fatal entry comes last. *)
Lemma post_parse_last_entry_wins_witness :
  snd (debug_internal_post_parse_func 5 3
         (mkDebugCmdArgs FALSE FALSE 1 [] TRUE 0)
         [("default", [(debug_level.dump, 0%nat); (debug_level.fatal, 0%nat)])]
         (fun _ => mkDebugOutStream false 0)) 0%nat =
  {| is_enabled := true; format := 8 |}.
Proof.
  apply (post_parse_last_entry_wins 5 3 (mkDebugCmdArgs FALSE FALSE 1 [] TRUE 0)
           [("default", [(debug_level.dump, 0%nat); (debug_level.fatal, 0%nat)])]
           (fun _ => mkDebugOutStream false 0)
           [(debug_level.dump, 0%nat)] [] debug_level.fatal 0%nat
           eq_refl ltac:(intros l' [])).
Defined.

(** X2: the hook writes [levels_enabled] and nothing else in the holder,
    and leaves every stream that the domain map does not reach as it
    was. *)
Theorem post_parse_frame (format_bits color_pos : Z) (a : DebugCmdArgs)
    (dm : domain_map_t) (st : Store) (h : handle)
    (Hout : forall l, ~ registered dm l h) :
  snd (debug_internal_post_parse_func format_bits color_pos a dm st) h = st h /\
  set_levels_enabled
    (snd (fst (debug_internal_post_parse_func format_bits color_pos a dm st)))
    (levels_enabled a) = a.
Proof.
  split.
  - rewrite post_parse_store. now apply propagate_frame.
  - rewrite post_parse_args. now destruct a.
Qed.

Lemma post_parse_frame_witness :
  snd (debug_internal_post_parse_func 5 3 (DebugCmdArgs_new true false)
         [("default", [(debug_level.warn, 1%nat)])]
         (fun _ => mkDebugOutStream false 31)) 0%nat = mkDebugOutStream false 31.
Proof.
  apply (proj1 (post_parse_frame 5 3 (DebugCmdArgs_new true false)
                  [("default", [(debug_level.warn, 1%nat)])]
                  (fun _ => mkDebugOutStream false 31) 0%nat
                  ltac:(intros l Hl; apply registered_entries in Hl; simpl in Hl;
                        intuition congruence))).
Defined.

(** X3: when no stream is held under two different levels, the order of the
    domains and of the entries does not matter: two domain maps that reach
    the same streams under the same levels leave every stream in the same
    state. *)
Theorem propagate_order_irrelevant (format_bits color_pos : Z) (L : Z) (c : bool)
    (dm dm' : domain_map_t) (st : Store) (h : handle)
    (Hsame : forall l h, registered dm l h <-> registered dm' l h)
    (Hown : forall h l l', registered dm l h -> registered dm l' h -> l = l') :
  propagate format_bits color_pos L c dm st h =
  propagate format_bits color_pos L c dm' st h.
Proof.
  rewrite !propagate_at.
  destruct (last_level (entries dm) h) as [l |] eqn:E.
  - apply last_level_some in E. apply registered_entries in E.
    rewrite (last_level_own (entries dm') h l); [reflexivity | |].
    + apply registered_entries. now apply Hsame.
    + intros l' Hin. apply registered_entries in Hin. apply Hsame in Hin.
      now apply (Hown h).
  - replace (last_level (entries dm') h) with (@None debug_level.flag); [reflexivity |].
    symmetry. apply last_level_none. intros l Hin.
    rewrite last_level_none in E. apply (E l).
    apply registered_entries. apply Hsame. now apply registered_entries.
Qed.

Lemma propagate_order_irrelevant_witness :
  propagate 5 3 28 true
    [("a", [(debug_level.dump, 0%nat); (debug_level.fatal, 1%nat)])]
    (fun _ => mkDebugOutStream true 0) 1%nat =
  propagate 5 3 28 true
    [("z", [(debug_level.fatal, 1%nat)]); ("b", [(debug_level.dump, 0%nat)])]
    (fun _ => mkDebugOutStream true 0) 1%nat.
Proof.
  apply (propagate_order_irrelevant 5 3 28 true
    [("a", [(debug_level.dump, 0%nat); (debug_level.fatal, 1%nat)])]
    [("z", [(debug_level.fatal, 1%nat)]); ("b", [(debug_level.dump, 0%nat)])]
    (fun _ => mkDebugOutStream true 0) 1%nat).
  - intros l h. rewrite !registered_entries. simpl. intuition.
  - intros h l l' H1 H2. apply registered_entries in H1, H2. simpl in H1, H2.
    intuition congruence.
Defined.

(** ** The two extremes *)

Lemma resolve_no_known_name (a : DebugCmdArgs) :
  debug_levels a <> [] ->
  (forall f, ~ In (debug_level.name f) (debug_levels a)) ->
  resolve_levels a = debug_level.none.
Proof.
  intros Hne Hno. rewrite (resolve_by_names a Hne).
  rewrite (levels_where_ext _ (fun _ => false)); [reflexivity |].
  intros f. destruct (found (debug_levels a) (debug_level.name f)) eqn:E; [| reflexivity].
  apply found_In in E. now destruct (Hno f).
Qed.

Lemma resolve_every_name (a : DebugCmdArgs) :
  (forall f, In (debug_level.name f) (debug_levels a)) ->
  resolve_levels a = debug_level.all.
Proof.
  intros Hall.
  assert (Hne : debug_levels a <> []).
  { intros E. specialize (Hall debug_level.dump). now rewrite E in Hall. }
  rewrite (resolve_by_names a Hne).
  rewrite (levels_where_ext _ (fun _ => true)); [reflexivity |].
  intros f. apply found_In. apply Hall.
Qed.

(** X4: the hook disables every stream of the domain map, shared or not,
    when names are given and none of them is the name of a level (whatever
    [verbose] and the number say), when no name is given and [quiet] is
    set, and when only the number counts and it is 0 or less. *)
Theorem post_parse_all_disabled (format_bits color_pos : Z) (a : DebugCmdArgs)
    (dm : domain_map_t) (st : Store) (l : debug_level.flag) (h : handle)
    (Hcase : (debug_levels a <> [] /\
              forall f, ~ In (debug_level.name f) (debug_levels a)) \/
             (debug_levels a = [] /\ quiet a <> 0) \/
             (debug_levels a = [] /\ quiet a = 0 /\ verbose a = 0 /\
              verbosity_level a <= 0))
    (Hreg : registered dm l h) :
  is_enabled (snd (debug_internal_post_parse_func format_bits color_pos a dm st) h) = false.
Proof.
  assert (Hnone : resolve_levels a = debug_level.none).
  { destruct Hcase as [[Hne Hno] | [[He Hq] | [He [Hq [Hv Hn]]]]].
    - now apply resolve_no_known_name.
    - now apply resolve_quiet.
    - rewrite (resolve_numeric a He Hq Hv).
      destruct (numeric_table (verbosity_level a))
        as [[_ E] | [[V _] | [[V _] | [[V _] | [[V _] | [V _]]]]]];
        [exact E | lia ..]. }
  rewrite post_parse_store, propagate_at, Hnone.
  destruct (last_level_registered dm l h Hreg) as [l' ->].
  now destruct l'.
Qed.

Lemma post_parse_all_disabled_witness :
  is_enabled
    (snd (debug_internal_post_parse_func 5 3
            (mkDebugCmdArgs TRUE FALSE 5 ["WARN"; " error"] TRUE 0)
            [("default", [(debug_level.fatal, 0%nat)])]
            (fun _ => mkDebugOutStream true 0)) 0%nat) = false.
Proof.
  apply (post_parse_all_disabled 5 3
           (mkDebugCmdArgs TRUE FALSE 5 ["WARN"; " error"] TRUE 0)
           [("default", [(debug_level.fatal, 0%nat)])]
           (fun _ => mkDebugOutStream true 0) debug_level.fatal 0%nat).
  - left. split; [discriminate |].
    intros f Hin. destruct f; simpl in Hin; intuition discriminate.
  - apply registered_entries. simpl. auto.
Defined.

(** X5: the hook enables every stream of the domain map, shared or not,
    when the names of all five levels are given, when no name is given,
    [quiet] is clear and [verbose] is set, and when only the number counts
    and it is 5 or more. *)
Theorem post_parse_all_enabled (format_bits color_pos : Z) (a : DebugCmdArgs)
    (dm : domain_map_t) (st : Store) (l : debug_level.flag) (h : handle)
    (Hcase : (forall f, In (debug_level.name f) (debug_levels a)) \/
             (debug_levels a = [] /\ quiet a = 0 /\ verbose a <> 0) \/
             (debug_levels a = [] /\ quiet a = 0 /\ verbose a = 0 /\
              5 <= verbosity_level a))
    (Hreg : registered dm l h) :
  is_enabled (snd (debug_internal_post_parse_func format_bits color_pos a dm st) h) = true.
Proof.
  assert (Hall : resolve_levels a = debug_level.all).
  { destruct Hcase as [Hnames | [[He [Hq Hv]] | [He [Hq [Hv Hn]]]]].
    - now apply resolve_every_name.
    - now apply resolve_verbose.
    - rewrite (resolve_numeric a He Hq Hv).
      destruct (numeric_table (verbosity_level a))
        as [[V _] | [[V _] | [[V _] | [[V _] | [[V _] | [_ E]]]]]];
        [lia .. | exact E]. }
  rewrite post_parse_store, propagate_at, Hall.
  destruct (last_level_registered dm l h Hreg) as [l' ->].
  now destruct l'.
Qed.

Lemma post_parse_all_enabled_witness :
  is_enabled
    (snd (debug_internal_post_parse_func 5 3
            (mkDebugCmdArgs FALSE FALSE 7 [] FALSE 0)
            [("default", [(debug_level.dump, 0%nat)])]
            (fun _ => mkDebugOutStream false 0)) 0%nat) = true.
Proof.
  apply (post_parse_all_enabled 5 3
           (mkDebugCmdArgs FALSE FALSE 7 [] FALSE 0)
           [("default", [(debug_level.dump, 0%nat)])]
           (fun _ => mkDebugOutStream false 0) debug_level.dump 0%nat).
  - right. right. repeat split; simpl; lia.
  - apply registered_entries. simpl. auto.
Defined.

(** ** One run of the hook after another *)

(** X6: a later run of the hook overrides an earlier one.  Whatever level
    set and colour switch the first pass used, the second pass leaves each
    stream as it would have left it without the first, given that the
    format of the stream is a value of the format bitset, the colour bit is
    one of its bits and the bitset fits an unsigned long. *)
Theorem propagate_overrides (format_bits color_pos : Z)
    (Hcolor : 0 <= color_pos < format_bits) (Hwidth : format_bits <= ulong_bits)
    (L1 L2 : Z) (c1 c2 : bool) (dm : domain_map_t) (st : Store) (h : handle)
    (Hval : bitset_value format_bits (format (st h))) :
  propagate format_bits color_pos L2 c2 dm
    (propagate format_bits color_pos L1 c1 dm st) h =
  propagate format_bits color_pos L2 c2 dm st h /\
  (forall a1 a2,
     snd (debug_internal_post_parse_func format_bits color_pos a2 dm
            (snd (debug_internal_post_parse_func format_bits color_pos a1 dm st))) h =
     snd (debug_internal_post_parse_func format_bits color_pos a2 dm st) h).
Proof.
  assert (Hover : forall L1' c1' L2' c2',
            propagate format_bits color_pos L2' c2' dm
              (propagate format_bits color_pos L1' c1' dm st) h =
            propagate format_bits color_pos L2' c2' dm st h).
  { intros L1' c1' L2' c2'.
    rewrite (propagate_at _ _ L2' c2' dm (propagate format_bits color_pos L1' c1' dm st) h).
    rewrite (propagate_at _ _ L2' c2' dm st h), (propagate_at _ _ L1' c1' dm st h).
    destruct (last_level (entries dm) h); [| reflexivity].
    cbn [format]. now rewrite with_color_override. }
  split; [apply Hover |].
  intros a1 a2. rewrite !post_parse_store. apply Hover.
Qed.

Lemma propagate_overrides_witness :
  propagate 5 3 0 false [("default", [(debug_level.warn, 0%nat)])]
    (propagate 5 3 31 true [("default", [(debug_level.warn, 0%nat)])]
       (fun _ => mkDebugOutStream false 6)) 0%nat =
  propagate 5 3 0 false [("default", [(debug_level.warn, 0%nat)])]
    (fun _ => mkDebugOutStream false 6) 0%nat.
Proof.
  apply (proj1 (propagate_overrides 5 3 ltac:(lia) ltac:(unfold ulong_bits; lia)
           31 0 true false [("default", [(debug_level.warn, 0%nat)])]
           (fun _ => mkDebugOutStream false 6) 0%nat
           ltac:(unfold bitset_value; simpl; lia))).
Defined.

(** ** Names of levels *)

(** X7: with names given, more names never switch a level off: a holder
    whose names include those of another, non-empty one resolves to a
    level set that includes the other's.  So a further call of the
    [--debug-levels] callback on a holder that has names can only add
    levels. *)
Theorem resolve_names_monotone (a a' : DebugCmdArgs)
    (Hne : debug_levels a <> [])
    (Hincl : incl (debug_levels a) (debug_levels a')) :
  debug_level.subset (resolve_levels a) (resolve_levels a') /\
  (forall f, debug_level.enabled_in (resolve_levels a) f = true ->
             debug_level.enabled_in (resolve_levels a') f = true) /\
  (forall value,
     debug_level.subset (resolve_levels a)
       (resolve_levels (snd (debug_internal_parse_levels value a)))).
Proof.
  assert (Hmono : forall b, incl (debug_levels a) (debug_levels b) ->
            forall f, found (debug_levels a) (debug_level.name f) = true ->
                      found (debug_levels b) (debug_level.name f) = true).
  { intros b Hb f Hf. apply found_In. apply Hb. now apply found_In. }
  assert (Hne' : forall b, incl (debug_levels a) (debug_levels b) -> debug_levels b <> []).
  { intros b Hb E. destruct (debug_levels a) as [| x xs]; [now apply Hne |].
    specialize (Hb x (or_introl eq_refl)). now rewrite E in Hb. }
  split; [| split].
  - rewrite (resolve_by_names a Hne), (resolve_by_names a' (Hne' a' Hincl)).
    apply levels_where_subset. now apply Hmono.
  - intros f. rewrite (resolve_by_names a Hne), (resolve_by_names a' (Hne' a' Hincl)).
    rewrite !enabled_in_levels_where. now apply Hmono.
  - intros value.
    assert (Hb : incl (debug_levels a)
                   (debug_levels (snd (debug_internal_parse_levels value a)))).
    { destruct value as [s |]; cbn.
      - unfold string_split. intros x Hx. apply in_or_app. now left.
      - intros x Hx. exact Hx. }
    rewrite (resolve_by_names a Hne), (resolve_by_names _ (Hne' _ Hb)).
    apply levels_where_subset. now apply Hmono.
Qed.

Lemma resolve_names_monotone_witness :
  debug_level.subset
    (resolve_levels (mkDebugCmdArgs FALSE FALSE 3 ["warn"] TRUE 0))
    (resolve_levels (mkDebugCmdArgs FALSE TRUE 0 ["fatal"; "warn"; "x"] TRUE 0)).
Proof.
  apply (proj1 (resolve_names_monotone
                  (mkDebugCmdArgs FALSE FALSE 3 ["warn"] TRUE 0)
                  (mkDebugCmdArgs FALSE TRUE 0 ["fatal"; "warn"; "x"] TRUE 0)
                  ltac:(discriminate)
                  ltac:(intros x Hx; simpl in Hx; simpl; intuition))).
Defined.

(** ** What the callback appends *)

Lemma string_app_not_empty (s : string) (c : ascii) :
  (s ++ String c EmptyString)%string <> EmptyString.
Proof. destruct s; discriminate. Qed.

Lemma pieces_all_empty (d : ascii) (s cur : string) :
  filter nonempty (pieces d s cur) = [] <->
  cur = EmptyString /\ string_forall (fun c => Ascii.eqb c d) s = true.
Proof.
  revert cur. induction s as [| c s IH]; intros cur.
  - simpl. destruct cur; simpl; split; intros H;
      try discriminate; try (split; reflexivity); try reflexivity.
    destruct H as [H _]. discriminate.
  - simpl. destruct (Ascii.eqb c d) eqn:E.
    + cbn [filter]. destruct cur as [| x cur]; cbn [nonempty andb].
      * rewrite IH. split; intros [_ H]; now split.
      * split; [discriminate | intros [H _]; discriminate].
    + rewrite IH. cbn [andb]. split.
      * intros [H _]. now destruct (string_app_not_empty cur c).
      * intros [_ H]. discriminate.
Qed.

(** X8: the callback leaves the holder as it is, and reports success, if
    and only if the value is empty or made of commas only; any other value
    makes [debug_levels] longer, hence non-empty. *)
Theorem parse_levels_unchanged_iff (data : DebugCmdArgs) (levels : string) :
  (debug_internal_parse_levels (Some levels) data = (true, data) <->
   string_forall (fun c => Ascii.eqb c ",") levels = true) /\
  (string_forall (fun c => Ascii.eqb c ",") levels = false ->
   (List.length (debug_levels data) <
    List.length (debug_levels (snd (debug_internal_parse_levels (Some levels) data))))%nat).
Proof.
  assert (Hnew : debug_levels (snd (debug_internal_parse_levels (Some levels) data)) =
                 (debug_levels data ++ filter nonempty (pieces "," levels EmptyString))%list)
    by reflexivity.
  split; [split |].
  - intros H. rewrite H in Hnew. cbn [snd] in Hnew.
    rewrite <- (app_nil_r (debug_levels data)) in Hnew at 1.
    apply app_inv_head in Hnew. symmetry in Hnew.
    now apply pieces_all_empty in Hnew.
  - intros H. cbn [debug_internal_parse_levels]. f_equal.
    unfold string_split.
    replace (filter nonempty (pieces "," levels EmptyString)) with (@nil string)
      by (symmetry; apply pieces_all_empty; now split).
    rewrite app_nil_r. now destruct data.
  - intros H. rewrite Hnew, length_app.
    destruct (filter nonempty (pieces "," levels EmptyString)) as [| x xs] eqn:E.
    + apply pieces_all_empty in E. destruct E as [_ E]. congruence.
    + simpl. lia.
Qed.

Lemma parse_levels_unchanged_iff_witness :
  (List.length (debug_levels (DebugCmdArgs_new false false)) <
   List.length (debug_levels
             (snd (debug_internal_parse_levels (Some ",,info,")
                     (DebugCmdArgs_new false false)))))%nat.
Proof.
  apply (proj2 (parse_levels_unchanged_iff (DebugCmdArgs_new false false) ",,info,")
           eq_refl).
Defined.

(** X9: what the callback appends.  Every element of [debug_levels] after
    a call was there before or is a piece of the value that is not empty
    and holds no comma; the elements that were there stay, in front.  The
    name of a level is found after the call if and only if it was found
    before or is one of the pieces. *)
Theorem parse_levels_appended (data : DebugCmdArgs) (levels : string) :
  (forall n, In n (debug_levels (snd (debug_internal_parse_levels (Some levels) data))) ->
     In n (debug_levels data) \/
     (In n (pieces "," levels EmptyString) /\ n <> EmptyString /\ has_char "," n = false)) /\
  firstn (List.length (debug_levels data))
    (debug_levels (snd (debug_internal_parse_levels (Some levels) data))) =
    debug_levels data /\
  (forall f,
     found (debug_levels (snd (debug_internal_parse_levels (Some levels) data)))
       (debug_level.name f) =
     found (debug_levels data) (debug_level.name f) ||
     found (pieces "," levels EmptyString) (debug_level.name f)).
Proof.
  cbn [debug_internal_parse_levels snd set_debug_levels debug_levels].
  unfold string_split. split; [| split].
  - intros n Hin. apply in_app_or in Hin. destruct Hin as [Hin | Hin]; [now left |].
    right. apply filter_In in Hin. destruct Hin as [Hin Hn].
    split; [exact Hin |]. split.
    + intros ->. discriminate.
    + now apply (pieces_no_delimiter "," levels EmptyString).
  - rewrite firstn_app, Nat.sub_diag, firstn_all. simpl. apply app_nil_r.
  - intros f. unfold found. rewrite existsb_app. f_equal.
    induction (pieces "," levels EmptyString) as [| p ps IH]; [reflexivity |].
    cbn [filter]. destruct p as [| c p].
    + cbn [nonempty existsb]. rewrite IH. now destruct f.
    + cbn [nonempty existsb]. now rewrite IH.
Qed.

(** ** The dump of the holder *)

Example dump_default_after_hook :
  debug_get_cmd_args_dump
    (snd (fst (debug_internal_post_parse_func 5 3 (DebugCmdArgs_new false false) []
                 (fun _ => mkDebugOutStream false 0)))) =
  (tab ++ "levels_enabled: 11100" ++ newline ++
   tab ++ "debug_colorize: true" ++ newline)%string.
Proof. reflexivity. Qed.

Lemma low_bits_eq (a b : Z) :
  to_bitset debug_level.bits a = to_bitset debug_level.bits b <->
  (Z.testbit a 4 = Z.testbit b 4 /\ Z.testbit a 3 = Z.testbit b 3 /\
   Z.testbit a 2 = Z.testbit b 2 /\ Z.testbit a 1 = Z.testbit b 1 /\
   Z.testbit a 0 = Z.testbit b 0).
Proof.
  unfold to_bitset, debug_level.bits. split.
  - intros H.
    assert (Hbit : forall i, 0 <= i < 5 -> Z.testbit a i = Z.testbit b i).
    { intros i Hi.
      assert (E : Z.testbit (Z.land a (Z.ones 5)) i = Z.testbit (Z.land b (Z.ones 5)) i)
        by now rewrite H.
      rewrite !Z.land_spec, Z.ones_spec_low, !andb_true_r in E by lia. exact E. }
    repeat split; apply Hbit; lia.
  - intros [H4 [H3 [H2 [H1 H0]]]].
    apply Z.bits_inj'. intros i Hi. rewrite !Z.land_spec.
    destruct (Z.lt_ge_cases i 5) as [Hlt | Hge].
    + assert (Hc : i = 0 \/ i = 1 \/ i = 2 \/ i = 3 \/ i = 4) by lia.
      destruct Hc as [-> | [-> | [-> | [-> | ->]]]]; congruence.
    + rewrite Z.ones_spec_high by lia. now rewrite !andb_false_r.
Qed.

Lemma dump_unfold (a : DebugCmdArgs) :
  debug_get_cmd_args_dump a =
  (tab ++ "levels_enabled: " ++
   String (if Z.testbit (levels_enabled a) 4 then "1"%char else "0"%char)
  (String (if Z.testbit (levels_enabled a) 3 then "1"%char else "0"%char)
  (String (if Z.testbit (levels_enabled a) 2 then "1"%char else "0"%char)
  (String (if Z.testbit (levels_enabled a) 1 then "1"%char else "0"%char)
  (String (if Z.testbit (levels_enabled a) 0 then "1"%char else "0"%char)
  (newline ++ tab ++ "debug_colorize: " ++
   boolalpha (truthy (debug_colorize a)) ++ newline))))))%string.
Proof. reflexivity. Qed.

Lemma bit_char_eq (x y : bool) :
  (if x then "1"%char else "0"%char) = (if y then "1"%char else "0"%char) -> x = y.
Proof. destruct x, y; intros H; try reflexivity; discriminate. Qed.

(** X10: the dump shows the level set: its first line holds five
    characters after the label, fatal first and dump last, and the
    character of a level is 1 if the level is enabled and 0 if it is not.
    After the hook these are the levels the hook computed. *)
Theorem dump_shows_levels (a : DebugCmdArgs) (f : debug_level.flag) :
  String.get (21 - Z.to_nat (debug_level.pos f)) (debug_get_cmd_args_dump a) =
    Some (if debug_level.enabled_in (levels_enabled a) f then "1"%char else "0"%char) /\
  (forall fb cp dm st,
     String.get (21 - Z.to_nat (debug_level.pos f))
       (debug_get_cmd_args_dump
          (snd (fst (debug_internal_post_parse_func fb cp a dm st)))) =
     Some (if debug_level.enabled_in (resolve_levels a) f then "1"%char else "0"%char)) /\
  String.length (debug_get_cmd_args_dump a) =
    (if truthy (debug_colorize a) then 45 else 46)%nat.
Proof.
  assert (Hget : forall b,
            String.get (21 - Z.to_nat (debug_level.pos f)) (debug_get_cmd_args_dump b) =
            Some (if debug_level.enabled_in (levels_enabled b) f
                  then "1"%char else "0"%char)).
  { intros b. rewrite enabled_in_testbit.
    unfold debug_get_cmd_args_dump. destruct f; reflexivity. }
  split; [apply Hget | split].
  - intros fb cp dm st. rewrite Hget. reflexivity.
  - unfold debug_get_cmd_args_dump.
    destruct (truthy (debug_colorize a)); reflexivity.
Qed.

(** X11: the dump tells holders apart by what it prints and by nothing
    else: two holders have the same dump if and only if the five bits of
    their level sets agree and their colour switches agree as
    conditions. *)
Theorem dump_injective (a a' : DebugCmdArgs) :
  debug_get_cmd_args_dump a = debug_get_cmd_args_dump a' <->
  to_bitset debug_level.bits (levels_enabled a) =
    to_bitset debug_level.bits (levels_enabled a') /\
  truthy (debug_colorize a) = truthy (debug_colorize a').
Proof.
  rewrite low_bits_eq, !dump_unfold. cbn [append tab newline]. split.
  - intros H.
    injection H as H4 H3 H2 H1 H0 Hc.
    apply bit_char_eq in H4, H3, H2, H1, H0.
    repeat split; try assumption.
    destruct (truthy (debug_colorize a)), (truthy (debug_colorize a'));
      try reflexivity; discriminate.
  - intros [[H4 [H3 [H2 [H1 H0]]]] Hc].
    now rewrite H4, H3, H2, H1, H0, Hc.
Qed.

(** ** The switches and the number *)

(** X12: the help texts of the option table say that [--verbose] is the
    same as [--verbosity-level 5] and [--quiet] the same as
    [--verbosity-level 0].  With no names given this is what the hook does:
    [verbose] set, with [quiet] clear, leaves the holder's level set and
    every stream as the number 5 alone would, and [quiet] set as the number
    0 alone would. *)
Theorem verbose_quiet_as_numbers (format_bits color_pos : Z) (a : DebugCmdArgs)
    (dm : domain_map_t) (st : Store) (h : handle)
    (Hl : debug_levels a = []) :
  (quiet a = 0 -> verbose a <> 0 ->
     resolve_levels a =
       resolve_levels (mkDebugCmdArgs FALSE FALSE 5 [] (debug_colorize a) (levels_enabled a)) /\
     snd (debug_internal_post_parse_func format_bits color_pos a dm st) h =
     snd (debug_internal_post_parse_func format_bits color_pos
            (mkDebugCmdArgs FALSE FALSE 5 [] (debug_colorize a) (levels_enabled a))
            dm st) h) /\
  (quiet a <> 0 ->
     resolve_levels a =
       resolve_levels (mkDebugCmdArgs FALSE FALSE 0 [] (debug_colorize a) (levels_enabled a)) /\
     snd (debug_internal_post_parse_func format_bits color_pos a dm st) h =
     snd (debug_internal_post_parse_func format_bits color_pos
            (mkDebugCmdArgs FALSE FALSE 0 [] (debug_colorize a) (levels_enabled a))
            dm st) h).
Proof.
  split.
  - intros Hq Hv.
    assert (E : resolve_levels a =
                resolve_levels (mkDebugCmdArgs FALSE FALSE 5 []
                                  (debug_colorize a) (levels_enabled a)))
      by now rewrite (resolve_verbose a Hl Hq Hv).
    split; [exact E |]. rewrite !post_parse_store. now rewrite E.
  - intros Hq.
    assert (E : resolve_levels a =
                resolve_levels (mkDebugCmdArgs FALSE FALSE 0 []
                                  (debug_colorize a) (levels_enabled a)))
      by now rewrite (resolve_quiet a Hl Hq).
    split; [exact E |]. rewrite !post_parse_store. now rewrite E.
Qed.

Lemma verbose_quiet_as_numbers_witness :
  resolve_levels (mkDebugCmdArgs TRUE FALSE 2 [] TRUE 0) =
  resolve_levels (mkDebugCmdArgs FALSE FALSE 5 [] TRUE 0).
Proof.
  apply (proj1 (proj1 (verbose_quiet_as_numbers 5 3
                         (mkDebugCmdArgs TRUE FALSE 2 [] TRUE 0) []
                         (fun _ => mkDebugOutStream false 0) 0%nat eq_refl)
                  eq_refl ltac:(discriminate))).
Defined.

(** X13: the holder as constructed with [_WIN32] or with [DEBUG_BUILD]
    makes the hook enable every stream of the domain map.  With [_WIN32]
    this stays so whatever number is stored in [verbosity_level]
    afterwards, as [verbose] is set from the start.  The colour bit of a
    stream of the domain map is cleared with [_WIN32] and set without. *)
Theorem default_args_other_builds (win32 debug_build : bool)
    (format_bits color_pos : Z)
    (Hcolor : 0 <= color_pos < format_bits) (Hwidth : format_bits <= ulong_bits)
    (dm : domain_map_t) (st : Store) (l : debug_level.flag) (h : handle)
    (Hreg : registered dm l h) :
  (win32 = true \/ debug_build = true ->
     is_enabled (snd (debug_internal_post_parse_func format_bits color_pos
                        (DebugCmdArgs_new win32 debug_build) dm st) h) = true) /\
  (forall n,
     is_enabled (snd (debug_internal_post_parse_func format_bits color_pos
                        (set_verbosity_level (DebugCmdArgs_new true debug_build) n)
                        dm st) h) = true) /\
  Z.testbit
    (format (snd (debug_internal_post_parse_func format_bits color_pos
                    (DebugCmdArgs_new win32 debug_build) dm st) h))
    color_pos = negb win32.
Proof.
  destruct (last_level_registered dm l h Hreg) as [l' Hl'].
  split; [| split].
  - intros Hb. rewrite post_parse_store, propagate_at, Hl'.
    destruct win32, debug_build, l'; try reflexivity;
      destruct Hb; discriminate.
  - intros n. rewrite post_parse_store, propagate_at, Hl'.
    now destruct l'.
  - rewrite post_parse_store, (propagate_format _ _ _ _ _ _ l h Hreg).
    rewrite with_color_bits by lia. rewrite Z.eqb_refl. now destruct win32.
Qed.

Lemma default_args_other_builds_witness :
  Z.testbit
    (format (snd (debug_internal_post_parse_func 5 3 (DebugCmdArgs_new true false)
                    [("default", [(debug_level.info, 0%nat)])]
                    (fun _ => mkDebugOutStream false 31)) 0%nat)) 3 = negb true.
Proof.
  apply (proj2 (proj2 (default_args_other_builds true false 5 3
                  ltac:(lia) ltac:(unfold ulong_bits; lia)
                  [("default", [(debug_level.info, 0%nat)])]
                  (fun _ => mkDebugOutStream false 31) debug_level.info 0%nat
                  ltac:(apply registered_entries; simpl; auto)))).
Defined.

(** X14: when only the number counts, it is the number of levels that are
    enabled, cut to the range from 0 to 5, and these are the most severe
    ones: the levels from fatal downwards. *)
Theorem numeric_fallback_count (a : DebugCmdArgs)
    (Hl : debug_levels a = []) (Hq : quiet a = FALSE) (Hv : verbose a = FALSE) :
  Z.of_nat (List.length
              (filter (debug_level.enabled_in (resolve_levels a)) debug_level.flags)) =
    Z.max 0 (Z.min 5 (verbosity_level a)) /\
  (forall f, debug_level.enabled_in (resolve_levels a) f = true <->
             5 - Z.max 0 (Z.min 5 (verbosity_level a)) <= debug_level.pos f).
Proof.
  rewrite (resolve_numeric a Hl Hq Hv). split.
  - destruct (numeric_table (verbosity_level a))
      as [[V E] | [[V E] | [[V E] | [[V E] | [[V E] | [V E]]]]]];
      rewrite E; try rewrite V; try reflexivity.
    + replace (Z.max 0 (Z.min 5 (verbosity_level a))) with 0 by lia. reflexivity.
    + replace (Z.max 0 (Z.min 5 (verbosity_level a))) with 5 by lia. reflexivity.
  - intros f. rewrite enabled_in_levels_where. unfold threshold.
    rewrite Z.gtb_lt. assert (0 <= debug_level.pos f <= 4) by (destruct f; simpl; lia).
    lia.
Qed.

Lemma numeric_fallback_count_witness :
  Z.of_nat (List.length
              (filter (debug_level.enabled_in
                         (resolve_levels (mkDebugCmdArgs FALSE FALSE 9 [] TRUE 0)))
                 debug_level.flags)) =
  Z.max 0 (Z.min 5 9).
Proof.
  apply (proj1 (numeric_fallback_count (mkDebugCmdArgs FALSE FALSE 9 [] TRUE 0)
                  eq_refl eq_refl eq_refl)).
Defined.
